(** * claun: the process executor (src/claun/core/executor.py)

    A shallow embedding of [Executor] and of the part of the Python runtime
    it calls, followed by the properties of argument construction, session
    identifier extraction, stream draining, logging and spawn failures. *)

From Stdlib Require Import List NArith ZArith Bool Lia PrimFloat.
From Stdlib Require Import Strings.String Strings.Ascii Strings.Byte.
Import ListNotations.

Local Open Scope N_scope.

(** ** Python strings and bytes *)

(** A Python [str] is a sequence of Unicode code points, a [bytes] object a
    sequence of bytes. *)
Definition char := N.
Definition str := list char.
Definition bytes := list byte.

(** A string literal of the source (all of them are ASCII). *)
Definition lit (s : string) : str := map N_of_ascii (list_ascii_of_string s).

Definition NL : char := 10.      (* "\n" *)
Definition SPACE : char := 32.   (* " " *)
Definition HYPHEN : char := 45.  (* "-" *)

(** Truth value of a [str] or [bytes] object: non-empty. *)
Definition nonempty {A} (l : list A) : bool :=
  match l with [] => false | _ :: _ => true end.

(** Truth value of an [Optional[str]]: neither [None] nor the empty string. *)
Definition truthy (o : option str) : bool :=
  match o with Some s => nonempty s | None => false end.

Module Py.

(** [s.split(sep)] for a one-character separator: the pieces between the
    occurrences of [sep]; always at least one piece. *)
Fixpoint split (sep : char) (s : str) : list str :=
  match s with
  | [] => [[]]
  | c :: s' =>
      if c =? sep then [] :: split sep s'
      else match split sep s' with
           | piece :: pieces => (c :: piece) :: pieces
           | [] => [[c]]
           end
  end.

(** [s.lstrip()], [s.rstrip()], [s.strip()], over the characters that
    satisfy [p]. *)
Fixpoint lstrip_by (p : char -> bool) (s : str) : str :=
  match s with
  | [] => []
  | c :: s' => if p c then lstrip_by p s' else s
  end.

Definition rstrip_by (p : char -> bool) (s : str) : str :=
  rev (lstrip_by p (rev s)).

Definition strip_by (p : char -> bool) (s : str) : str :=
  lstrip_by p (rstrip_by p s).

(** [s.rstrip(chars)]: trailing characters that occur in [chars] go. *)
Definition rstrip_chars (chars : str) (s : str) : str :=
  rstrip_by (fun c => existsb (N.eqb c) chars) s.

(** [s.replace(c, "")] for a one-character [c]: every occurrence goes. *)
Definition remove_char (c : char) (s : str) : str :=
  filter (fun x => negb (x =? c)) s.

(** [len(s)]. *)
Definition len (s : str) : N := N.of_nat (List.length s).

(** ["".join(pieces)]. *)
Definition join_empty (pieces : list str) : str := List.concat pieces.

(** The ASCII part of the character classes behind [str.isspace] and
    [str.isalnum]. *)
Definition ascii_isspace (c : char) : bool :=
  ((9 <=? c) && (c <=? 13)) || ((28 <=? c) && (c <=? 32)).

Definition ascii_isalnum (c : char) : bool :=
  ((48 <=? c) && (c <=? 57)) || ((65 <=? c) && (c <=? 90))
  || ((97 <=? c) && (c <=? 122)).

(** What the interpreter brings and the repository does not define: the
    Unicode character classes and the UTF-8 decoder with replacement of
    invalid sequences.  Below 128 they are the ASCII ones. *)
Record Runtime := {
  c_isspace : char -> bool;
  c_isalnum : char -> bool;
  decode : bytes -> str;   (* b.decode("utf-8", errors="replace") *)
  c_isspace_ascii : forall c, c < 128 -> c_isspace c = ascii_isspace c;
  c_isalnum_ascii : forall c, c < 128 -> c_isalnum c = ascii_isalnum c;
  decode_ascii : forall b,
    Forall (fun x => Byte.to_N x < 128) b -> decode b = map Byte.to_N b
}.

(** [s.strip()]. *)
Definition strip (rt : Runtime) (s : str) : str := strip_by (c_isspace rt) s.

(** [s.isalnum()]: at least one character, and all of them alphanumeric. *)
Definition isalnum (rt : Runtime) (s : str) : bool :=
  nonempty s && forallb (c_isalnum rt) s.

End Py.

(** Bytes of an ASCII literal, as in [b"line 1\n"]. *)
Definition blit (s : string) : bytes := list_byte_of_string s.

(** ** Results and errors *)

(** [ExecutionResult]; the duration is a Python float, an IEEE binary64. *)
Record ExecutionResult := {
  output : str;
  exit_code : Z;
  session_id : option str;
  duration_seconds : float;
  error_output : str
}.

(** What [asyncio.create_subprocess_exec] can raise: the two exceptions the
    source names, and any other one, by its class name. *)
Inductive SpawnFailure :=
| FileNotFoundError
| PermissionError
| OtherFailure (class_name : string).

(** What [run] can raise: the module's [ExecutionError] with its message, or
    an exception it does not catch. *)
Inductive Raised :=
| ExecutionError (message : str)
| Uncaught (class_name : string).

Inductive Outcome :=
| Returns (result : ExecutionResult)
| Raises (e : Raised).

(** ** The world around a call *)

(** [run] is a coroutine that awaits one thing after the other; within a
    call nothing else touches the executor, so the call is embedded as a
    sequential function.  The world answers the spawn, hands out the chunks
    of the two streams, keeps the files, and decides which operation raises:
    opening the log, a readline, the caller's function, a write, a flush, the
    wait, the close.  What the call does to the world is kept as a list of
    events, one for each operation it starts.  Decoding replaces invalid
    bytes and does not raise. *)

(** A [Path]; every [Path] object is true, so [if log_file:] asks whether
    one was given. *)
Definition path := string.

(** The subprocess as the executor sees it: the chunks its two readers hold
    for [readline] before the end of the stream, and the exit code read
    after [wait]. *)
Record Process := {
  stdout : list bytes;
  stderr : list bytes;
  returncode : option Z
}.

Inductive Stream := Stdout | Stderr.

(** A caller's function, by name: what it does is the caller's.  A function
    object is true, so [self.passthrough and on_output] asks whether
    passthrough is on and one was given. *)
Definition Callable := nat.

(** What a call does to the world, in order. *)
Inductive Event :=
| Spawn (args : list str)
| Readline (s : Stream)
| Call (f : Callable) (arg : str)
| Open (p : path)                (* open(p, "w") *)
| Write (p : path) (s : str)
| Flush (p : path)
| Close (p : path)
| Wait.

(** The world: its answer to the spawn, the two readings of the clock, and
    for every operation, after the events so far, whether it raises and the
    class of what it raises. *)
Record OS := {
  create_subprocess_exec : list str -> SpawnFailure + Process;
  raises : list Event -> Event -> option string;
  time_before : float;   (* first reading of time.time() *)
  time_after : float     (* second reading of time.time() *)
}.

(** The state a call threads: the files on disk and the events so far. *)
Record IO := {
  files : path -> option str;
  trace : list Event
}.

(** An open text file: its path and what was written but not flushed. *)
Record TextIO := {
  name : path;
  buffer : str
}.

Definition M (A : Type) : Type := IO -> A * IO.

Definition ret {A} (a : A) : M A := fun io => (a, io).

Definition bind {A B} (m : M A) (k : A -> M B) : M B :=
  fun io => let (a, io') := m io in k a io'.

Notation "x <- m ;; k" := (bind m (fun x => k))
  (at level 61, m at next level, right associativity).
Notation "' pat <- m ;; k" := (bind m (fun x => match x with pat => k end))
  (at level 61, pat pattern, m at next level, right associativity).

Definition emit (e : Event) : M unit :=
  fun io => (tt, {| files := files io; trace := trace io ++ [e] |}).

Definition put_file (fs : path -> option str) (p : path) (content : str)
  : path -> option str :=
  fun q => if String.eqb q p then Some content else fs q.

Definition flushed (fs : path -> option str) (h : TextIO) : path -> option str :=
  put_file fs (name h)
    (match fs (name h) with Some old => old ++ buffer h | None => buffer h end).

(** *** What can raise *)

(** A value, or an exception of the given class on its way up. *)
Inductive Result (A : Type) : Type :=
| Ok (a : A)
| Err (class_name : string).

Arguments Ok {A} a.
Arguments Err {A} class_name.

(** What the statements of [run] after the spawn work on: the world, and the
    variable [log_handle]. *)
Record Frame := {
  world : IO;
  log_handle : option TextIO
}.

Definition T (A : Type) : Type := Frame -> Result A * Frame.

Definition ret_T {A} (a : A) : T A := fun f => (Ok a, f).

Definition raise_T {A} (class_name : string) : T A := fun f => (Err class_name, f).

Definition bind_T {A B} (m : T A) (k : A -> T B) : T B :=
  fun f => match m f with
           | (Ok a, f') => k a f'
           | (Err class_name, f') => (Err class_name, f')
           end.

Notation "x <~ m ;; k" := (bind_T m (fun x => k))
  (at level 61, m at next level, right associativity).

(** [try: body finally: final]: [final] runs however [body] ends, and what
    it raises takes the place of what [body] returned or raised. *)
Definition try_finally {A} (body : T A) (final : T unit) : T A :=
  fun f => let (r, f1) := body f in
           match final f1 with
           | (Ok _, f2) => (r, f2)
           | (Err class_name, f2) => (Err class_name, f2)
           end.

(** An operation on the world: it is recorded, and it raises if the world
    says so. *)
Definition attempt (os : OS) (e : Event) : T unit :=
  fun f => (match raises os (trace (world f)) e with
            | Some class_name => Err class_name
            | None => Ok tt
            end,
            {| world := {| files := files (world f); trace := trace (world f) ++ [e] |};
               log_handle := log_handle f |}).

(** What an operation that did not raise does to the files and the handle. *)
Definition update (fs : Frame -> path -> option str)
    (h : Frame -> option TextIO) : T unit :=
  fun f => (Ok tt, {| world := {| files := fs f; trace := trace (world f) |};
                      log_handle := h f |}).

(** [if log_handle: ...], and a method of the file that [log_handle] is. *)
Definition if_log (m : TextIO -> T unit) : T unit :=
  fun f => match log_handle f with Some h => m h f | None => (Ok tt, f) end.

(** [log_handle = open(p, "w")]: the file is created or truncated. *)
Definition open_w (os : OS) (p : path) : T unit :=
  _ <~ attempt os (Open p) ;;
  update (fun f => put_file (files (world f)) p [])
         (fun _ => Some {| name := p; buffer := [] |}).

(** [log_handle.write(s)]: into the buffer. *)
Definition write (os : OS) (s : str) : T unit :=
  if_log (fun h =>
    _ <~ attempt os (Write (name h) s) ;;
    update (fun f => files (world f))
           (fun _ => Some {| name := name h; buffer := buffer h ++ s |})).

(** [log_handle.flush()]: the buffer goes to the end of the file. *)
Definition flush (os : OS) : T unit :=
  if_log (fun h =>
    _ <~ attempt os (Flush (name h)) ;;
    update (fun f => flushed (files (world f)) h)
           (fun _ => Some {| name := name h; buffer := [] |})).

(** [log_handle.close()]: flushes what is left. *)
Definition close (os : OS) : T unit :=
  if_log (fun h =>
    _ <~ attempt os (Close (name h)) ;;
    update (fun f => flushed (files (world f)) h)
           (fun _ => Some {| name := name h; buffer := [] |})).

(** The limit of the two readers: [create_subprocess_exec] is called
    without one, so it is asyncio's 64 KiB.  [readline] raises ValueError
    when more bytes than that come before the newline, or before the end. *)
Definition reader_limit : N := 65536.

Fixpoint before_newline (chunk : bytes) : N :=
  match chunk with
  | [] => 0
  | b :: chunk' => if Byte.to_N b =? 10 then 0 else 1 + before_newline chunk'
  end.

Definition over_limit (chunk : bytes) : bool :=
  reader_limit <? before_newline chunk.

(** [await process.stdout.readline()], or stderr: the chunk the reader
    holds, or the empty one at the end of the stream. *)
Definition readline (os : OS) (s : Stream) (chunk : bytes) : T bytes :=
  _ <~ attempt os (Readline s) ;;
  if over_limit chunk then raise_T "ValueError" else ret_T chunk.

(** ** The executor *)

Record Executor := {
  session_name : option str;
  passthrough : bool;
  _session_id : option str
}.

(** [Executor.__init__]. *)
Definition Executor_init (session_name : option str) (passthrough : bool) : Executor :=
  {| session_name := session_name; passthrough := passthrough; _session_id := None |}.

(** [self._session_id = session_id]. *)
Definition set_session_id (self : Executor) (session_id : option str) : Executor :=
  {| session_name := session_name self;
     passthrough := passthrough self;
     _session_id := session_id |}.

(** [Executor._build_args].  The [elif resume and self._session_id] is
    the match on the cached identifier with the test under it: the
    identifier is appended when resume is set and it is not empty. *)
Definition _build_args (self : Executor) (command : str) (first_run resume : bool)
  : list str :=
  let args := [lit "claude"; lit "--print"; command] in
  if truthy (session_name self) then
    if first_run then args ++ [lit "--print-session-id"]
    else
      match _session_id self with
      | Some sid =>
          if resume && nonempty sid then args ++ [lit "--session"; sid] else args
      | None => args
      end
  else args.

(** The loop of [Executor._extract_session_id] over the lines. *)
Fixpoint first_session_line (rt : Py.Runtime) (lines : list str) : option str :=
  match lines with
  | [] => None
  | line :: rest =>
      let line := Py.strip rt line in
      if (10 <? Py.len line) && (Py.len line <? 100)
         && Py.isalnum rt (Py.remove_char HYPHEN line)
      then Some line
      else first_session_line rt rest
  end.

(** [Executor._extract_session_id]. *)
Definition _extract_session_id (rt : Py.Runtime) (output : str) : option str :=
  first_session_line rt (Py.split NL output).

(** [code or 0] on an [Optional[int]]. *)
Definition or_zero (code : option Z) : Z :=
  match code with
  | Some n => if (n =? 0)%Z then 0%Z else n
  | None => 0%Z
  end.

(** The two loops of [Executor.run]. *)
Fixpoint read_stdout (rt : Py.Runtime) (os : OS) (self : Executor)
    (on_output : option Callable) (stream : list bytes) (output_lines : list str)
  : T (list str) :=
  match stream with
  | [] => _ <~ readline os Stdout [] ;; ret_T output_lines
  | line_bytes :: stream' =>
      line_bytes <~ readline os Stdout line_bytes ;;
      if negb (nonempty line_bytes) then ret_T output_lines
      else
        let line := Py.decode rt line_bytes in
        let output_lines := output_lines ++ [line] in
        _ <~ match (if passthrough self then on_output else None) with
             | Some f => attempt os (Call f (Py.rstrip_chars [NL] line))
             | None => ret_T tt
             end ;;
        _ <~ if_log (fun _ => _ <~ write os line ;; flush os) ;;
        read_stdout rt os self on_output stream' output_lines
  end.

Fixpoint read_stderr (rt : Py.Runtime) (os : OS)
    (stream : list bytes) (error_lines : list str)
  : T (list str) :=
  match stream with
  | [] => _ <~ readline os Stderr [] ;; ret_T error_lines
  | line_bytes :: stream' =>
      line_bytes <~ readline os Stderr line_bytes ;;
      if negb (nonempty line_bytes) then ret_T error_lines
      else
        let line := Py.decode rt line_bytes in
        let error_lines := error_lines ++ [line] in
        _ <~ if_log (fun _ => _ <~ write os (lit "[stderr] " ++ line) ;; flush os) ;;
        read_stderr rt os stream' error_lines
  end.

(** The statements of [Executor.run] after the spawn: the log is opened,
    and under [try] the two loops run and the process is waited for, with
    the log closed in the [finally]. *)
Definition after_spawn (rt : Py.Runtime) (os : OS) (self : Executor)
    (log_file : option path) (on_output : option Callable) (process : Process)
  : T (list str * list str) :=
  _ <~ match log_file with Some p => open_w os p | None => ret_T tt end ;;
  try_finally
    (output_lines <~ read_stdout rt os self on_output (stdout process) [] ;;
     error_lines <~ read_stderr rt os (stderr process) [] ;;
     _ <~ attempt os Wait ;;
     ret_T (output_lines, error_lines))
    (if_log (fun _ => close os)).

(** [Executor.run]: the outcome and the executor after the call.  The
    identifier found is cached under [if session_id:], inside
    [if first_run and self.session_name:]; what is raised after the spawn
    is not caught. *)
Definition run (rt : Py.Runtime) (os : OS) (self : Executor) (command : str)
    (first_run resume : bool) (log_file : option path) (on_output : option Callable)
  : M (Outcome * Executor) :=
  let start_time := time_before os in
  let args := _build_args self command first_run resume in
  _ <- emit (Spawn args) ;;
  match create_subprocess_exec os args with
  | inl FileNotFoundError =>
      ret (Raises (ExecutionError
             (lit "Claude Code not found. Please ensure 'claude' is installed and in PATH.")),
           self)
  | inl PermissionError =>
      ret (Raises (ExecutionError (lit "Permission denied when running Claude Code.")),
           self)
  | inl (OtherFailure class_name) => ret (Raises (Uncaught class_name), self)
  | inr process =>
      fun io =>
        match after_spawn rt os self log_file on_output process
                {| world := io; log_handle := None |} with
        | (Err class_name, f) => ((Raises (Uncaught class_name), self), world f)
        | (Ok (output_lines, error_lines), f) =>
            let duration := PrimFloat.sub (time_after os) start_time in
            let output := Py.join_empty output_lines in
            let error_output := Py.join_empty error_lines in
            let session_id :=
              if first_run && truthy (session_name self)
              then _extract_session_id rt output else None in
            let self' :=
              if first_run && truthy (session_name self) && truthy session_id
              then set_session_id self session_id else self in
            ((Returns {| output := output;
                         exit_code := or_zero (returncode process);
                         session_id := session_id;
                         duration_seconds := duration;
                         error_output := error_output |},
              self'),
             world f)
        end
  end.

(** ** Vocabulary of the properties *)

(** The shape of a session identifier as the source tests it on a trimmed
    line: more than 10 and fewer than 100 characters, something left once
    the hyphens are gone, and all of that alphanumeric. *)
Definition session_id_shape (rt : Py.Runtime) (s : str) : Prop :=
  (10 < List.length s < 100)%nat
  /\ (forall c, In c s -> c <> HYPHEN -> Py.c_isalnum rt c = true)
  /\ (exists c, In c s /\ c <> HYPHEN).

(** The shape as the specification words it: the length, and every
    character left after the hyphens are gone is alphanumeric. *)
Definition spec_session_id_shape (rt : Py.Runtime) (s : str) : Prop :=
  (10 < List.length s < 100)%nat
  /\ (forall c, In c s -> c <> HYPHEN -> Py.c_isalnum rt c = true).

(** The test of the loop of [_extract_session_id], on the trimmed line. *)
Definition line_test (rt : Py.Runtime) (line : str) : bool :=
  (10 <? Py.len line) && (Py.len line <? 100)
  && Py.isalnum rt (Py.remove_char HYPHEN line).

(** The chunks a loop of [run] reads from a stream: those before the first
    empty one, which is how [readline] signals the end. *)
Fixpoint lines_read (stream : list bytes) : list bytes :=
  match stream with
  | [] => []
  | line_bytes :: stream' =>
      if nonempty line_bytes then line_bytes :: lines_read stream' else []
  end.

(** The run's events that touch a file, and those that call the caller. *)
Definition is_file_event (e : Event) : bool :=
  match e with
  | Open _ | Write _ _ | Flush _ | Close _ => true
  | _ => false
  end.

Definition is_call (e : Event) : bool :=
  match e with Call _ _ => true | _ => false end.

Definition is_readline (e : Event) : bool :=
  match e with Readline _ => true | _ => false end.

(** The executors a caller can hold: a fresh one, or one that went through
    a call of [run], in whatever world and with whatever arguments. *)
Inductive reachable (rt : Py.Runtime) : Executor -> Prop :=
| reachable_init (session_name : option str) (passthrough : bool) :
    reachable rt (Executor_init session_name passthrough)
| reachable_run (self : Executor) (os : OS) (command : str)
    (first_run resume : bool) (log_file : option path)
    (on_output : option Callable) (io : IO) :
    reachable rt self ->
    reachable rt
      (snd (fst (run rt os self command first_run resume log_file on_output io))).

(** The string is empty or starts outside the class. *)
Definition starts_outside (p : char -> bool) (s : str) : Prop :=
  match s with [] => True | c :: _ => p c = false end.

(** The events that open or close a file. *)
Definition is_open_or_close (e : Event) : bool :=
  match e with Open _ | Close _ => true | _ => false end.

(** ** What raises and what does not *)

(** A world where no operation raises. *)
Definition quiet (os : OS) : Prop :=
  forall history e, raises os history e = None.

(** No chunk of the stream is over the readers' limit. *)
Definition within_limit (stream : list bytes) : Prop :=
  Forall (fun chunk => over_limit chunk = false) stream.

(** The events the stdout loop can make, with the log at [log] if there is
    one: a read of stdout, a call of the caller's function with a line less
    its trailing newlines, a write to the log, a flush of it. *)
Definition stdout_phase (self : Executor) (on_output : option Callable)
    (log : option path) (e : Event) : Prop :=
  e = Readline Stdout
  \/ (exists f line,
        (if passthrough self then on_output else None) = Some f
        /\ e = Call f (Py.rstrip_chars [NL] line))
  \/ (exists p s, log = Some p /\ (e = Write p s \/ e = Flush p)).

(** The events the stderr loop can make. *)
Definition stderr_phase (log : option path) (e : Event) : Prop :=
  e = Readline Stderr
  \/ (exists p s, log = Some p /\ (e = Write p s \/ e = Flush p)).

(** The events a call can make, on whatever path: the spawn, the events of
    the two loops, the wait, and the open and the close of the log. *)
Definition run_kind (self : Executor) (on_output : option Callable)
    (log_file : option path) (e : Event) : Prop :=
  (exists args, e = Spawn args)
  \/ stdout_phase self on_output log_file e
  \/ stderr_phase log_file e
  \/ e = Wait
  \/ (exists p, log_file = Some p /\ (e = Open p \/ e = Close p)).

(** From one frame to a later one: the log, if any, is the same file, the
    files are untouched when there is no log, and the events in between are
    of the given kind. *)
Definition steps (kind : Event -> Prop) (f f' : Frame) : Prop :=
  option_map name (log_handle f') = option_map name (log_handle f)
  /\ (log_handle f = None -> files (world f') = files (world f))
  /\ exists events,
       trace (world f') = trace (world f) ++ events /\ Forall kind events.

(** The frame after an operation was recorded. *)
Definition recorded (e : Event) (f : Frame) : Frame :=
  {| world := {| files := files (world f); trace := trace (world f) ++ [e] |};
     log_handle := log_handle f |}.

(** What holds of the result and the frame after a computation. *)
Definition wp {A} (m : T A) (Q : Result A -> Frame -> Prop) (f : Frame) : Prop :=
  Q (fst (m f)) (snd (m f)).

(** A computation that only makes steps of a kind, whatever it returns or
    raises, from every frame whose log is [log]. *)
Definition stepper {A} (kind : Event -> Prop) (log : option path) (m : T A) : Prop :=
  forall f, option_map name (log_handle f) = log ->
            wp m (fun _ f' => steps kind f f') f.

(** ** What the loops are expected to do *)

(** The events of one round of the stdout loop on a decoded line: the read,
    the call of the caller's function, the write to the log and its flush. *)
Definition stdout_line_events (self : Executor) (on_output : option Callable)
    (log : option path) (line : str) : list Event :=
  Readline Stdout
  :: match (if passthrough self then on_output else None) with
     | Some f => [Call f (Py.rstrip_chars [NL] line)]
     | None => []
     end
  ++ match log with Some p => [Write p line; Flush p] | None => [] end.

(** The events of one round of the stderr loop. *)
Definition stderr_line_events (log : option path) (line : str) : list Event :=
  Readline Stderr
  :: match log with
     | Some p => [Write p (lit "[stderr] " ++ line); Flush p]
     | None => []
     end.

(** The handle after the texts were written and flushed one by one. *)
Definition log_after (log : option TextIO) (texts : list str) : option TextIO :=
  match log, texts with
  | Some h, _ :: _ => Some {| name := name h; buffer := [] |}
  | _, _ => log
  end.

(** The files after the texts were written and flushed one by one. *)
Definition files_after (log : option TextIO) (fs : path -> option str)
    (texts : list str) : path -> option str :=
  match log, texts with
  | Some h, _ :: _ =>
      put_file fs (name h)
        (match fs (name h) with Some old => old | None => [] end
         ++ buffer h ++ List.concat texts)
  | _, _ => fs
  end.

(** What holds after the stdout loop, started in frame [f] with [acc]
    collected: if it returns, it returns the lines of all the chunks read,
    and the handle, the events and the files are those of the rounds; it
    raises only where the world raises or a chunk is over the limit. *)
Definition stdout_post (rt : Py.Runtime) (os : OS) (self : Executor)
    (on_output : option Callable) (f : Frame) (acc : list str)
    (stream : list bytes) (r : Result (list str)) (f' : Frame) : Prop :=
  match r with
  | Ok lines =>
      let outs := map (Py.decode rt) (lines_read stream) in
      lines = acc ++ outs
      /\ log_handle f' = log_after (log_handle f) outs
      /\ trace (world f')
         = trace (world f)
           ++ flat_map (stdout_line_events self on_output
                          (option_map name (log_handle f))) outs
           ++ [Readline Stdout]
      /\ (forall q, files (world f') q
                    = files_after (log_handle f) (files (world f)) outs q)
  | Err _ => ~ (quiet os /\ within_limit (lines_read stream))
  end.

(** The same for the stderr loop, with the marker before each logged line. *)
Definition stderr_post (rt : Py.Runtime) (os : OS) (f : Frame) (acc : list str)
    (stream : list bytes) (r : Result (list str)) (f' : Frame) : Prop :=
  match r with
  | Ok lines =>
      let errs := map (Py.decode rt) (lines_read stream) in
      lines = acc ++ errs
      /\ log_handle f' = log_after (log_handle f) (map (app (lit "[stderr] ")) errs)
      /\ trace (world f')
         = trace (world f)
           ++ flat_map (stderr_line_events (option_map name (log_handle f))) errs
           ++ [Readline Stderr]
      /\ (forall q, files (world f') q
                    = files_after (log_handle f) (files (world f))
                        (map (app (lit "[stderr] ")) errs) q)
  | Err _ => ~ (quiet os /\ within_limit (lines_read stream))
  end.

(** ** What a call that spawned its process is expected to do *)

(** The events of a call whose process was spawned, over the decoded lines
    of the two streams. *)
Definition run_events (self : Executor) (args : list str)
    (log_file : option path) (on_output : option Callable)
    (outs errs : list str) : list Event :=
  Spawn args
  :: match log_file with Some p => [Open p] | None => [] end
  ++ flat_map (stdout_line_events self on_output log_file) outs
  ++ [Readline Stdout]
  ++ flat_map (stderr_line_events log_file) errs
  ++ [Readline Stderr; Wait]
  ++ match log_file with Some p => [Close p] | None => [] end.

(** The text of the log after such a call. *)
Definition log_text (outs errs : list str) : str :=
  List.concat outs ++ List.concat (map (app (lit "[stderr] ")) errs).

(** ** Sample worlds *)

(** A text line as the subprocess writes it: the text and a newline. *)
Definition with_nl (s : string) : string := (s ++ String "010" "")%string.

(** A process that wrote the given lines and exited with [code]. *)
Definition process_of (out err : list string) (code : Z) : Process :=
  {| stdout := map (fun s => blit (with_nl s)) out;
     stderr := map (fun s => blit (with_nl s)) err;
     returncode := Some code |}.

(** A system where the spawn answers [spawned], whatever the arguments, and
    nothing raises after it. *)
Definition os_of (spawned : SpawnFailure + Process) : OS :=
  {| create_subprocess_exec := fun _ => spawned;
     raises := fun _ _ => None;
     time_before := 0%float;
     time_after := 1%float |}.


(** A line of 70000 characters and its newline: more than the readers'
    limit before the newline. *)
Definition long_line : bytes :=
  repeat "x"%byte (N.to_nat 70000) ++ blit (with_nl "").

(** A process whose second line of stdout is the long one. *)
Definition long_line_process : Process :=
  {| stdout := [blit (with_nl "logged output"); long_line];
     stderr := [blit (with_nl "warning")];
     returncode := Some 0%Z |}.

(** A process with the long line between the two lines of the tests. *)
Definition long_middle_process : Process :=
  {| stdout := [blit (with_nl "hello"); long_line; blit (with_nl "world")];
     stderr := [];
     returncode := Some 0%Z |}.

(** A UUID between two other lines, with blanks around it. *)
Definition chatty_output : str :=
  lit (with_nl "Session started" ++ with_nl "  550e8400-e29b-41d4-a716-446655440000 "
       ++ "abcdefghijkl").

(** No files and no events yet. *)
Definition io_empty : IO := {| files := fun _ => None; trace := [] |}.

(** One file with a text in it. *)
Definition io_with (p : path) (content : str) : IO :=
  {| files := put_file (fun _ => None) p content; trace := [] |}.

(** Sample lines: a UUID, and two lines of hyphens only. *)
Definition uuid_line : str := lit "550e8400-e29b-41d4-a716-446655440000".
Definition hyphens_11 : str := lit "-----------".
Definition hyphens_36 : str := lit "------------------------------------".

(** ** An instance of the runtime *)

(** A runtime that knows ASCII only: outside of it no character is a space
    or alphanumeric, and every byte from 128 on decodes to U+FFFD.  It agrees
    with the interpreter on ASCII input, where the examples below use it. *)
Definition ascii_decode (b : bytes) : str :=
  map (fun x => if Byte.to_N x <? 128 then Byte.to_N x else 65533) b.

Lemma ascii_decode_ascii (b : bytes) :
  Forall (fun x => Byte.to_N x < 128) b -> ascii_decode b = map Byte.to_N b.
Proof.
  induction 1 as [|x l Hx _ IH]; [reflexivity|].
  unfold ascii_decode in *; cbn [map]. rewrite IH.
  apply N.ltb_lt in Hx. now rewrite Hx.
Qed.

Definition ascii_runtime : Py.Runtime :=
  {| Py.c_isspace := fun c => (c <? 128) && Py.ascii_isspace c;
     Py.c_isalnum := fun c => (c <? 128) && Py.ascii_isalnum c;
     Py.decode := ascii_decode;
     Py.c_isspace_ascii := fun c H =>
       f_equal (fun b => b && Py.ascii_isspace c) (proj2 (N.ltb_lt c 128) H);
     Py.c_isalnum_ascii := fun c H =>
       f_equal (fun b => b && Py.ascii_isalnum c) (proj2 (N.ltb_lt c 128) H);
     Py.decode_ascii := ascii_decode_ascii |}.

(** A fresh executor after two first runs: one whose output is a UUID, and
    one whose output holds no identifier. *)
Definition twice_called : Executor :=
  snd (fst (run ascii_runtime (os_of (inr (process_of ["short"%string] [] 0)))
              (snd (fst (run ascii_runtime
                           (os_of (inr (process_of
                              ["550e8400-e29b-41d4-a716-446655440000"%string] [] 0)))
                           (Executor_init (Some (lit "my-session")) false)
                           (lit "test") true false None None io_empty)))
              (lit "again") true false None None io_empty)).

(** * Properties *)

(** ** Argument construction *)

Section BuildArgs.

Variables (self : Executor) (command : str).

Let base : list str := [lit "claude"; lit "--print"; command].

Lemma build_args_unnamed (first_run resume : bool) :
  truthy (session_name self) = false ->
  _build_args self command first_run resume = base.
Proof. unfold _build_args. now intros ->. Qed.

Lemma build_args_named_first (resume : bool) :
  truthy (session_name self) = true ->
  _build_args self command true resume = base ++ [lit "--print-session-id"].
Proof. unfold _build_args. now intros ->. Qed.

Lemma build_args_named_resume (sid : str) :
  truthy (session_name self) = true ->
  _session_id self = Some sid -> sid <> [] ->
  _build_args self command false true = base ++ [lit "--session"; sid].
Proof.
  unfold _build_args. intros -> -> Hsid.
  destruct sid; [contradiction | reflexivity].
Qed.

Lemma build_args_no_cache (resume : bool) :
  truthy (_session_id self) = false ->
  _build_args self command false resume = base.
Proof.
  unfold _build_args, truthy. intros Hid.
  destruct (session_name self) as [[|? ?]|]; cbn; try reflexivity.
  destruct (_session_id self) as [sid|]; [|reflexivity].
  rewrite Hid, andb_false_r. reflexivity.
Qed.

(** Whatever the flags, the vector is the base one, or it has one of the two
    session suffixes. *)
Lemma build_args_cases (first_run resume : bool) :
  let args := _build_args self command first_run resume in
  args = base
  \/ (args = base ++ [lit "--print-session-id"]
      /\ first_run = true /\ truthy (session_name self) = true)
  \/ (exists sid, args = base ++ [lit "--session"; sid]
      /\ first_run = false /\ resume = true
      /\ truthy (session_name self) = true
      /\ _session_id self = Some sid /\ sid <> []).
Proof.
  unfold _build_args. cbn zeta.
  destruct (truthy (session_name self)) eqn:Hn; [|now left].
  destruct first_run; [right; left; now repeat split|].
  destruct (_session_id self) as [sid|] eqn:Hid; [|now left].
  destruct resume; cbn; [|now left].
  destruct sid as [|c sid]; cbn; [now left|].
  right; right. exists (c :: sid). now repeat split.
Qed.

End BuildArgs.

Lemma truthy_Some_iff (o : option str) :
  truthy o = true <-> exists s, o = Some s /\ s <> [].
Proof.
  destruct o as [[|c s]|]; cbn; split; try discriminate.
  - intros (s & [= <-] & H). contradiction.
  - intros _. exists (c :: s). now split.
  - reflexivity.
  - intros (s & H & _). discriminate.
Qed.

(** C1: with a session name configured (the source's test: a name that is
    not empty), a first run builds claude, --print, the command,
    --print-session-id, resume set or not; with none configured ([None], or
    the empty name, which the source treats alike) the vector is the base one
    for all flags, so the flag is never appended. *)
Theorem C1_first_run_prints_session_id :
  forall (self : Executor) (command : str),
    (forall name resume,
        session_name self = Some name -> name <> [] ->
        _build_args self command true resume
        = [lit "claude"; lit "--print"; command; lit "--print-session-id"])
    /\ (forall first_run resume,
        session_name self = None \/ session_name self = Some [] ->
        _build_args self command first_run resume
        = [lit "claude"; lit "--print"; command]).
Proof.
  intros self command; split.
  - intros name resume Hn Hne.
    apply build_args_named_first, truthy_Some_iff. eauto.
  - intros first_run resume Hn.
    apply build_args_unnamed. now destruct Hn as [-> | ->].
Qed.

(** The session of the tests, and no session. *)
Lemma C1_first_run_prints_session_id_witness :
  _build_args (Executor_init (Some (lit "my-session")) false) (lit "test") true true
  = [lit "claude"; lit "--print"; lit "test"; lit "--print-session-id"]
  /\ _build_args (Executor_init None false) (lit "test") true false
     = [lit "claude"; lit "--print"; lit "test"].
Proof.
  split.
  - apply (proj1 (C1_first_run_prints_session_id _ _) (lit "my-session"));
      [reflexivity | discriminate].
  - apply (proj2 (C1_first_run_prints_session_id _ _)). now left.
Defined.

(** C2: with a session name configured and an identifier cached (neither
    empty), resume without first_run builds claude, --print, the command,
    --session and exactly the cached identifier; with no identifier cached,
    resume without first_run builds claude, --print, the command alone. *)
Theorem C2_resume_selects_cached_session :
  forall (self : Executor) (command : str),
    (forall name sid,
        session_name self = Some name -> name <> [] ->
        _session_id self = Some sid -> sid <> [] ->
        _build_args self command false true
        = [lit "claude"; lit "--print"; command; lit "--session"; sid])
    /\ (_session_id self = None ->
        _build_args self command false true
        = [lit "claude"; lit "--print"; command]).
Proof.
  intros self command; split.
  - intros name sid Hn Hne Hid Hsid.
    apply build_args_named_resume; trivial.
    apply truthy_Some_iff; eauto.
  - intros Hid. apply build_args_no_cache. now rewrite Hid.
Qed.

(** The cached identifier of the tests, and a fresh executor. *)
Lemma C2_resume_selects_cached_session_witness :
  _build_args {| session_name := Some (lit "my-session"); passthrough := false;
                 _session_id := Some (lit "abc123") |} (lit "test") false true
  = [lit "claude"; lit "--print"; lit "test"; lit "--session"; lit "abc123"]
  /\ _build_args (Executor_init (Some (lit "my-session")) false) (lit "test") false true
     = [lit "claude"; lit "--print"; lit "test"].
Proof.
  split.
  - apply (proj1 (C2_resume_selects_cached_session _ _) (lit "my-session"));
      try reflexivity; discriminate.
  - apply (proj2 (C2_resume_selects_cached_session _ _)). reflexivity.
Defined.

(** ** Strings *)

Lemma split_no_sep (sep : char) (s : str) :
  ~ In sep s -> Py.split sep s = [s].
Proof.
  induction s as [|c s IH]; cbn; [reflexivity|]. intros Hin.
  destruct (N.eqb_spec c sep) as [->|_]; [tauto|].
  rewrite IH by tauto. reflexivity.
Qed.

Lemma lstrip_by_id (p : char -> bool) (s : str) :
  match s with [] => True | c :: _ => p c = false end ->
  Py.lstrip_by p s = s.
Proof. destruct s as [|c s]; cbn; [reflexivity|]. now intros ->. Qed.

(** A string whose characters are all outside the class is left alone. *)
Lemma strip_by_none (p : char -> bool) (s : str) :
  (forall c, In c s -> p c = false) -> Py.strip_by p s = s.
Proof.
  intros H. unfold Py.strip_by, Py.rstrip_by.
  rewrite (lstrip_by_id p (rev s)), rev_involutive.
  - apply lstrip_by_id. destruct s; [exact I|]. apply H. now left.
  - destruct (rev s) as [|c r] eqn:E; [exact I|].
    apply H, in_rev. rewrite E. now left.
Qed.

(** A line that ends in its one newline loses it, and nothing else. *)
Lemma rstrip_newline (body : str) :
  ~ In NL body -> Py.rstrip_chars [NL] (body ++ [NL]) = body.
Proof.
  intros Hnl. unfold Py.rstrip_chars, Py.rstrip_by.
  rewrite rev_app_distr. cbn.
  rewrite lstrip_by_id; [apply rev_involutive|].
  destruct (rev body) as [|c r] eqn:E; [exact I|].
  rewrite orb_false_r. apply N.eqb_neq. intros ->.
  apply Hnl, in_rev. rewrite E. now left.
Qed.

Lemma rstrip_no_newline (body : str) :
  ~ In NL body -> Py.rstrip_chars [NL] body = body.
Proof.
  intros Hnl. unfold Py.rstrip_chars, Py.rstrip_by.
  rewrite lstrip_by_id; [apply rev_involutive|].
  destruct (rev body) as [|c r] eqn:E; [exact I|].
  cbn. rewrite orb_false_r. apply N.eqb_neq. intros ->.
  apply Hnl, in_rev. rewrite E. now left.
Qed.

Lemma nonempty_remove_char (c : char) (s : str) :
  nonempty (Py.remove_char c s) = true <-> exists x, In x s /\ x <> c.
Proof.
  unfold Py.remove_char. set (keep := fun y => negb (y =? c)).
  assert (Hkeep : forall x, In x (filter keep s) <-> In x s /\ x <> c).
  { intros x. rewrite filter_In. unfold keep.
    now rewrite negb_true_iff, N.eqb_neq. }
  destruct (filter keep s) as [|x r]; cbn; split; try discriminate.
  - intros (x & Hx). now apply Hkeep in Hx.
  - intros _. exists x. apply Hkeep. now left.
  - reflexivity.
Qed.

Lemma forallb_remove_char (p : char -> bool) (c : char) (s : str) :
  forallb p (Py.remove_char c s) = true
  <-> (forall x, In x s -> x <> c -> p x = true).
Proof.
  unfold Py.remove_char. rewrite forallb_forall. split.
  - intros H x Hx Hc. apply H, filter_In. split; [assumption|].
    now apply negb_true_iff, N.eqb_neq.
  - intros H x Hx. apply filter_In in Hx. destruct Hx as [Hx Hc].
    apply H; [assumption|]. now apply N.eqb_neq, negb_true_iff.
Qed.

(** ** Extraction of the session identifier *)

Section Extraction.

Variable rt : Py.Runtime.

Lemma line_test_shape (line : str) :
  line_test rt line = true <-> session_id_shape rt line.
Proof.
  unfold line_test, session_id_shape, Py.isalnum, Py.len.
  rewrite !andb_true_iff, !N.ltb_lt, nonempty_remove_char, forallb_remove_char.
  split.
  - intros [[H1 H2] [H3 H4]]. repeat split; trivial; lia.
  - intros [[H1 H2] [H3 H4]]. repeat split; trivial; lia.
Qed.

Lemma line_test_not_shape (line : str) :
  line_test rt line = false <-> ~ session_id_shape rt line.
Proof.
  rewrite <- line_test_shape. destruct (line_test rt line); split; congruence.
Qed.

Lemma first_session_line_eq (lines : list str) :
  first_session_line rt lines
  = match lines with
    | [] => None
    | line :: rest =>
        if line_test rt (Py.strip rt line) then Some (Py.strip rt line)
        else first_session_line rt rest
    end.
Proof. destruct lines; reflexivity. Qed.

(** The loop returns the first line that passes, trimmed. *)
Lemma first_session_line_found (lines : list str) (s : str) :
  first_session_line rt lines = Some s ->
  exists before line after,
    lines = before ++ line :: after
    /\ s = Py.strip rt line
    /\ session_id_shape rt s
    /\ Forall (fun l => ~ session_id_shape rt (Py.strip rt l)) before.
Proof.
  induction lines as [|l lines IH]; rewrite first_session_line_eq; [discriminate|].
  destruct (line_test rt (Py.strip rt l)) eqn:E.
  - intros [= <-]. exists [], l, lines.
    apply line_test_shape in E. auto.
  - intros H. destruct (IH H) as (before & line & after & -> & Hs & Hshape & Hb).
    exists (l :: before), line, after.
    apply line_test_not_shape in E. auto.
Qed.

Lemma first_session_line_none (lines : list str) :
  first_session_line rt lines = None ->
  Forall (fun l => ~ session_id_shape rt (Py.strip rt l)) lines.
Proof.
  induction lines as [|l lines IH]; rewrite first_session_line_eq; [constructor|].
  destruct (line_test rt (Py.strip rt l)) eqn:E; [discriminate|].
  intros H. constructor; [now apply line_test_not_shape | auto].
Qed.

End Extraction.

Lemma newline_not_alnum (rt : Py.Runtime) : Py.c_isalnum rt NL = false.
Proof. now rewrite Py.c_isalnum_ascii. Qed.

Lemma space_not_alnum (rt : Py.Runtime) : Py.c_isalnum rt SPACE = false.
Proof. now rewrite Py.c_isalnum_ascii. Qed.

(** A line of the right shape that is already trimmed and holds no newline
    is what the extraction returns for it. *)
Lemma extract_single_line (rt : Py.Runtime) (line : str) :
  ~ In NL line -> Py.strip rt line = line -> session_id_shape rt line ->
  _extract_session_id rt line = Some line.
Proof.
  intros Hnl Hstrip Hshape. unfold _extract_session_id.
  rewrite split_no_sep, first_session_line_eq, Hstrip by assumption.
  apply line_test_shape in Hshape. now rewrite Hshape.
Qed.

Lemma extract_single_line_none (rt : Py.Runtime) (line : str) :
  ~ In NL line -> ~ session_id_shape rt (Py.strip rt line) ->
  _extract_session_id rt line = None.
Proof.
  intros Hnl Hshape. unfold _extract_session_id.
  rewrite split_no_sep, first_session_line_eq by assumption.
  apply line_test_not_shape in Hshape. now rewrite Hshape.
Qed.

Lemma shape_no_space (rt : Py.Runtime) (s : str) :
  session_id_shape rt s -> ~ In SPACE s.
Proof.
  intros (_ & Hall & _) Hin.
  specialize (Hall SPACE Hin). rewrite space_not_alnum in Hall.
  discriminate Hall. discriminate.
Qed.

(** C3, amended: the extraction returns the first line of the output split
    at newlines that, trimmed, has more than 10 and fewer than 100 characters,
    at least one of them not a hyphen, and all but the hyphens alphanumeric;
    it returns that line trimmed, and nothing when no line is like that. *)
Theorem C3_extract_first_matching_line :
  forall (rt : Py.Runtime) (output : str),
    match _extract_session_id rt output with
    | Some s =>
        exists before line after,
          Py.split NL output = before ++ line :: after
          /\ s = Py.strip rt line
          /\ session_id_shape rt s
          /\ Forall (fun l => ~ session_id_shape rt (Py.strip rt l)) before
    | None =>
        Forall (fun l => ~ session_id_shape rt (Py.strip rt l)) (Py.split NL output)
    end.
Proof.
  intros rt output. unfold _extract_session_id.
  destruct (first_session_line rt (Py.split NL output)) as [s|] eqn:E.
  - now apply first_session_line_found.
  - now apply first_session_line_none.
Qed.

(** C3 as worded fails on a line of hyphens: it has 11 characters and none
    is left after the hyphens are gone, so all that are left are
    alphanumeric, yet no identifier is found. *)
Lemma C3_counterexample_hyphens :
  Py.split NL hyphens_11 = [hyphens_11]
  /\ Py.strip ascii_runtime hyphens_11 = hyphens_11
  /\ spec_session_id_shape ascii_runtime hyphens_11
  /\ _extract_session_id ascii_runtime hyphens_11 = None.
Proof.
  split; [reflexivity|]. split; [reflexivity|]. split; [|reflexivity].
  split; [cbn; lia|].
  intros c Hin Hc. cbn in Hin.
  repeat (destruct Hin as [<-|Hin]; [now elim Hc|]). destruct Hin.
Qed.

(** C4, amended: a trimmed line of 11 to 99 characters, each alphanumeric or
    a hyphen and at least one not a hyphen, is returned as the identifier; a
    line that trimmed has 9 characters or holds a space yields none, and no
    identifier ever has 9 characters or holds a space. *)
Theorem C4_extract_recognizes :
  forall (rt : Py.Runtime),
    (forall line,
        Py.strip rt line = line ->
        (11 <= List.length line <= 99)%nat ->
        Forall (fun c => c = HYPHEN \/ Py.c_isalnum rt c = true) line ->
        Exists (fun c => c <> HYPHEN) line ->
        _extract_session_id rt line = Some line)
    /\ (forall line,
        ~ In NL line ->
        List.length (Py.strip rt line) = 9%nat \/ In SPACE (Py.strip rt line) ->
        _extract_session_id rt line = None)
    /\ (forall output s,
        _extract_session_id rt output = Some s ->
        List.length s <> 9%nat /\ ~ In SPACE s).
Proof.
  intros rt. split; [|split].
  - intros line Hstrip Hlen Hall Hex.
    rewrite Forall_forall in Hall. rewrite Exists_exists in Hex.
    apply extract_single_line; trivial.
    + intros Hin. destruct (Hall _ Hin) as [H|H]; [discriminate H|].
      rewrite newline_not_alnum in H. discriminate H.
    + split; [lia|]. split; [|assumption].
      intros c Hin Hc. destruct (Hall _ Hin); [contradiction | assumption].
  - intros line Hnl Hbad. apply extract_single_line_none; trivial.
    intros Hshape. destruct Hbad as [H9|Hsp].
    + destruct Hshape as [Hlen _]. lia.
    + now apply shape_no_space in Hshape.
  - intros output s H. unfold _extract_session_id in H.
    apply first_session_line_found in H.
    destruct H as (_ & _ & _ & _ & _ & Hshape & _). split.
    + destruct Hshape as [Hlen _]. lia.
    + now apply shape_no_space in Hshape.
Qed.

Lemma alnum_or_hyphen_check (rt : Py.Runtime) (s : str) :
  forallb (fun c => (c =? HYPHEN) || Py.c_isalnum rt c) s = true ->
  Forall (fun c => c = HYPHEN \/ Py.c_isalnum rt c = true) s.
Proof.
  rewrite forallb_forall, Forall_forall. intros H c Hin.
  apply H, orb_true_iff in Hin. now rewrite N.eqb_eq in Hin.
Qed.

Lemma not_in_check (c : char) (s : str) :
  existsb (N.eqb c) s = false -> ~ In c s.
Proof.
  intros H Hin. apply not_true_iff_false in H. apply H, existsb_exists.
  exists c. split; [assumption | apply N.eqb_refl].
Qed.

(** A UUID is recognized; nine digits and a line with a space are not. *)
Lemma C4_extract_recognizes_witness :
  _extract_session_id ascii_runtime uuid_line = Some uuid_line
  /\ _extract_session_id ascii_runtime (lit "123456789") = None
  /\ _extract_session_id ascii_runtime (lit "session 550e8400") = None.
Proof.
  destruct (C4_extract_recognizes ascii_runtime) as (Hyes & Hno & _).
  split; [|split].
  - apply Hyes.
    + vm_compute; reflexivity.
    + vm_compute; lia.
    + apply alnum_or_hyphen_check. vm_compute; reflexivity.
    + apply Exists_cons_hd. vm_compute; discriminate.
  - apply Hno; [apply not_in_check; vm_compute; reflexivity|].
    left. vm_compute; reflexivity.
  - apply Hno; [apply not_in_check; vm_compute; reflexivity|].
    right. vm_compute. tauto.
Defined.

(** C4 as worded fails on a line of 36 hyphens: it is trimmed, its length is
    between 11 and 99 and each character is a hyphen, yet it is not taken for
    an identifier. *)
Lemma C4_counterexample_hyphens :
  Py.strip ascii_runtime hyphens_36 = hyphens_36
  /\ (11 <= List.length hyphens_36 <= 99)%nat
  /\ Forall (fun c => c = HYPHEN \/ Py.c_isalnum ascii_runtime c = true) hyphens_36
  /\ _extract_session_id ascii_runtime hyphens_36 = None.
Proof.
  split; [vm_compute; reflexivity|]. split; [vm_compute; lia|].
  split; [|vm_compute; reflexivity].
  apply alnum_or_hyphen_check. vm_compute; reflexivity.
Qed.

(** ** Files and handles *)

Lemma put_file_same (fs : path -> option str) (p : path) (content : str) :
  put_file fs p content p = Some content.
Proof. unfold put_file. now rewrite String.eqb_refl. Qed.

Lemma put_file_other (fs : path -> option str) (p q : path) (content : str) :
  q <> p -> put_file fs p content q = fs q.
Proof. unfold put_file. intros H. apply String.eqb_neq in H. now rewrite H. Qed.

Lemma log_after_name (log : option TextIO) (texts : list str) :
  option_map name (log_after log texts) = option_map name log.
Proof. destruct log as [h|], texts; reflexivity. Qed.

Lemma log_after_cons (log : option TextIO) (s : str) (texts : list str) :
  log_after (log_after log [s]) texts = log_after log (s :: texts).
Proof. destruct log as [h|], texts; reflexivity. Qed.

Lemma log_after_nil (log : option TextIO) : log_after log [] = log.
Proof. now destruct log. Qed.

Lemma files_after_nil (log : option TextIO) (fs : path -> option str) :
  files_after log fs [] = fs.
Proof. now destruct log. Qed.

Lemma files_after_ext (log : option TextIO) (fs fs' : path -> option str)
    (texts : list str) :
  (forall q, fs q = fs' q) ->
  forall q, files_after log fs texts q = files_after log fs' texts q.
Proof.
  intros H q. destruct log as [h|], texts as [|s texts]; cbn; trivial.
  unfold put_file. rewrite H. destruct (String.eqb q (name h)); [|apply H].
  reflexivity.
Qed.

Lemma files_after_cons (log : option TextIO) (fs : path -> option str)
    (s : str) (texts : list str) (q : path) :
  files_after (log_after log [s]) (files_after log fs [s]) texts q
  = files_after log fs (s :: texts) q.
Proof.
  destruct log as [h|]; [|now destruct texts].
  destruct texts as [|s' texts]; [reflexivity|].
  cbn [files_after log_after name buffer]. rewrite put_file_same.
  unfold put_file. destruct (String.eqb q (name h)); [|reflexivity].
  cbn [List.concat]. now rewrite app_nil_r, !app_nil_l, <- !app_assoc.
Qed.

Lemma files_after_content (h : TextIO) (fs : path -> option str)
    (content : str) (texts : list str) (q : path) :
  buffer h = [] -> fs (name h) = Some content ->
  files_after (Some h) fs texts q
  = if String.eqb q (name h) then Some (content ++ List.concat texts) else fs q.
Proof.
  intros Hb Hc. destruct texts as [|s texts]; cbn [files_after].
  - destruct (String.eqb_spec q (name h)) as [->|_]; [|reflexivity].
    now rewrite Hc, app_nil_r.
  - unfold put_file. now rewrite Hb, Hc.
Qed.

(** ** Frames *)

Lemma steps_refl (kind : Event -> Prop) (f : Frame) : steps kind f f.
Proof.
  split; [reflexivity|]. split; [reflexivity|].
  exists []. now rewrite app_nil_r.
Qed.

Lemma steps_trans (kind : Event -> Prop) (f1 f2 f3 : Frame) :
  steps kind f1 f2 -> steps kind f2 f3 -> steps kind f1 f3.
Proof.
  intros (Hn1 & Hf1 & ev1 & Ht1 & Hk1) (Hn2 & Hf2 & ev2 & Ht2 & Hk2).
  split; [congruence|]. split.
  - intros Hnone. rewrite Hf2, Hf1; trivial.
    destruct (log_handle f2); [|reflexivity].
    rewrite Hnone in Hn1. discriminate Hn1.
  - exists (ev1 ++ ev2). rewrite Ht2, Ht1, app_assoc. split; [reflexivity|].
    apply Forall_app. now split.
Qed.

Lemma steps_weaken (kind kind' : Event -> Prop) (f f' : Frame) :
  (forall e, kind e -> kind' e) -> steps kind f f' -> steps kind' f f'.
Proof.
  intros H (Hn & Hf & ev & Ht & Hk). split; [assumption|]. split; [assumption|].
  exists ev. split; [assumption|]. eapply Forall_impl; eassumption.
Qed.

(** ** Rules for the computations after the spawn *)

Lemma wp_ret {A} (a : A) (Q : Result A -> Frame -> Prop) (f : Frame) :
  Q (Ok a) f -> wp (ret_T a) Q f.
Proof. trivial. Qed.

Lemma wp_raise {A} (c : string) (Q : Result A -> Frame -> Prop) (f : Frame) :
  Q (Err c) f -> wp (raise_T c) Q f.
Proof. trivial. Qed.

Lemma wp_bind {A B} (m : T A) (k : A -> T B) (Q : Result B -> Frame -> Prop)
    (f : Frame) :
  wp m (fun r f' => match r with
                    | Ok a => wp (k a) Q f'
                    | Err c => Q (Err c) f'
                    end) f ->
  wp (bind_T m k) Q f.
Proof. unfold wp, bind_T. now destruct (m f) as [[a|c] f']. Qed.

Lemma wp_conseq {A} (m : T A) (Q Q' : Result A -> Frame -> Prop) (f : Frame) :
  (forall r f', Q r f' -> Q' r f') -> wp m Q f -> wp m Q' f.
Proof. unfold wp. auto. Qed.

Lemma wp_attempt (os : OS) (e : Event) (Q : Result unit -> Frame -> Prop)
    (f : Frame) :
  (raises os (trace (world f)) e = None -> Q (Ok tt) (recorded e f)) ->
  (forall c, raises os (trace (world f)) e = Some c -> Q (Err c) (recorded e f)) ->
  wp (attempt os e) Q f.
Proof.
  unfold wp, attempt. cbn. fold (recorded e f).
  destruct (raises os (trace (world f)) e); auto.
Qed.

Lemma wp_update (fs : Frame -> path -> option str) (h : Frame -> option TextIO)
    (Q : Result unit -> Frame -> Prop) (f : Frame) :
  Q (Ok tt) {| world := {| files := fs f; trace := trace (world f) |};
               log_handle := h f |} ->
  wp (update fs h) Q f.
Proof. trivial. Qed.

Lemma wp_if_log (m : TextIO -> T unit) (Q : Result unit -> Frame -> Prop)
    (f : Frame) :
  match log_handle f with
  | Some h => wp (m h) Q f
  | None => Q (Ok tt) f
  end ->
  wp (if_log m) Q f.
Proof. unfold wp, if_log. now destruct (log_handle f). Qed.

Lemma wp_try_finally {A} (body : T A) (final : T unit)
    (Q : Result A -> Frame -> Prop) (f : Frame) :
  wp body (fun r f1 =>
             wp final (fun c f2 => match c with
                                   | Ok _ => Q r f2
                                   | Err cls => Q (Err cls) f2
                                   end) f1) f ->
  wp (try_finally body final) Q f.
Proof.
  unfold wp, try_finally. destruct (body f) as [r f1]. cbn.
  now destruct (final f1) as [[u|cls] f2].
Qed.

Lemma wp_readline (os : OS) (s : Stream) (chunk : bytes)
    (Q : Result bytes -> Frame -> Prop) (f : Frame) :
  (forall c, raises os (trace (world f)) (Readline s) = Some c ->
             Q (Err c) (recorded (Readline s) f)) ->
  (raises os (trace (world f)) (Readline s) = None ->
   if over_limit chunk then Q (Err "ValueError"%string) (recorded (Readline s) f)
   else Q (Ok chunk) (recorded (Readline s) f)) ->
  wp (readline os s chunk) Q f.
Proof.
  intros Herr Hok. unfold readline. apply wp_bind, wp_attempt.
  - intros Hnone. specialize (Hok Hnone).
    destruct (over_limit chunk); [now apply wp_raise | now apply wp_ret].
  - exact Herr.
Qed.

(** Writing a text to the log and flushing it, if there is a log: the write
    raises, or the flush raises with the text in the buffer, or the text is
    in the file. *)
Lemma wp_log_text (os : OS) (s : str) (Q : Result unit -> Frame -> Prop)
    (f : Frame) :
  match log_handle f with
  | None => Q (Ok tt) f
  | Some h =>
      let written :=
        {| world := {| files := files (world f);
                       trace := (trace (world f) ++ [Write (name h) s])
                                ++ [Flush (name h)] |};
           log_handle := Some {| name := name h; buffer := buffer h ++ s |} |} in
      let flushed_ :=
        {| world := {| files := flushed (files (world f))
                                  {| name := name h; buffer := buffer h ++ s |};
                       trace := (trace (world f) ++ [Write (name h) s])
                                ++ [Flush (name h)] |};
           log_handle := Some {| name := name h; buffer := [] |} |} in
      (forall c, raises os (trace (world f)) (Write (name h) s) = Some c ->
                 Q (Err c) (recorded (Write (name h) s) f))
      /\ (raises os (trace (world f)) (Write (name h) s) = None ->
          (forall c, raises os (trace (world f) ++ [Write (name h) s])
                       (Flush (name h)) = Some c ->
                     Q (Err c) written)
          /\ (raises os (trace (world f) ++ [Write (name h) s])
                 (Flush (name h)) = None ->
              Q (Ok tt) flushed_))
  end ->
  wp (if_log (fun _ => _ <~ write os s ;; flush os)) Q f.
Proof.
  intros H. apply wp_if_log. destruct (log_handle f) as [h|] eqn:Hh; [|exact H].
  cbn zeta in H. destruct H as [Hw Hrest].
  apply wp_bind. unfold write. apply wp_if_log. rewrite Hh.
  apply wp_bind, wp_attempt; [|exact Hw].
  intros Hnone. destruct (Hrest Hnone) as [Hf Hok]. apply wp_update.
  unfold flush. apply wp_if_log. cbn [log_handle].
  apply wp_bind, wp_attempt; cbn [world trace recorded files log_handle name buffer].
  - intros Hnone'. apply wp_update. cbn. exact (Hok Hnone').
  - exact Hf.
Qed.

(** ** Steps, on every path *)

Section Steppers.

Variables (kind : Event -> Prop) (log : option path).

Lemma stepper_ret {A} (a : A) : stepper kind log (ret_T a).
Proof. intros f _. apply wp_ret, steps_refl. Qed.

Lemma stepper_raise {A} (c : string) : stepper kind log (@raise_T A c).
Proof. intros f _. apply wp_raise, steps_refl. Qed.

Lemma stepper_bind {A B} (m : T A) (k : A -> T B) :
  stepper kind log m -> (forall a, stepper kind log (k a)) ->
  stepper kind log (bind_T m k).
Proof.
  intros Hm Hk f Hlog. apply wp_bind.
  eapply wp_conseq; [|exact (Hm f Hlog)]. cbn beta.
  intros [a|c] f' Hsteps; [|exact Hsteps].
  eapply wp_conseq; [|apply (Hk a f')].
  - cbn beta. intros _ f''. now apply steps_trans.
  - destruct Hsteps as [Hname _]. congruence.
Qed.

Lemma stepper_attempt (os : OS) (e : Event) :
  kind e -> stepper kind log (attempt os e).
Proof.
  intros He f _.
  assert (Hs : steps kind f (recorded e f)).
  { split; [reflexivity|]. split; [reflexivity|].
    exists [e]. split; [reflexivity|]. now constructor. }
  apply wp_attempt; auto.
Qed.

Lemma stepper_readline (os : OS) (s : Stream) (chunk : bytes) :
  kind (Readline s) -> stepper kind log (readline os s chunk).
Proof.
  intros He. unfold readline. apply stepper_bind; [now apply stepper_attempt|].
  intros _. destruct (over_limit chunk); [apply stepper_raise | apply stepper_ret].
Qed.

(** Writing to the log and flushing it are steps when the kind has the
    writes and flushes of the log. *)
Lemma stepper_log_text (os : OS) (s : str) :
  (forall p, log = Some p -> kind (Write p s) /\ kind (Flush p)) ->
  stepper kind log (if_log (fun _ => _ <~ write os s ;; flush os)).
Proof.
  intros Hkind f Hlog. apply wp_log_text.
  destruct (log_handle f) as [h|] eqn:Hh; [|apply steps_refl].
  cbn zeta. cbn in Hlog. destruct (Hkind (name h) (eq_sym Hlog)) as [Hw Hf].
  assert (Hnone : forall X : Prop, Some h = None -> X) by discriminate.
  split; [|intros _; split].
  - intros c _. split; [reflexivity|]. split; [reflexivity|].
    exists [Write (name h) s]. split; [reflexivity|]. now constructor.
  - intros c _. split; [cbn; now rewrite Hh|]. split; [rewrite Hh; apply Hnone|].
    exists [Write (name h) s; Flush (name h)]. cbn.
    split; [now rewrite <- app_assoc|]. now repeat constructor.
  - intros _. split; [cbn; now rewrite Hh|]. split; [rewrite Hh; apply Hnone|].
    exists [Write (name h) s; Flush (name h)]. cbn.
    split; [now rewrite <- app_assoc|]. now repeat constructor.
Qed.

(** Closing the log is one step when the kind has the close of the log. *)
Lemma stepper_close (os : OS) :
  (forall p, log = Some p -> kind (Close p)) ->
  stepper kind log (if_log (fun _ => close os)).
Proof.
  intros Hkind f Hlog. apply wp_if_log.
  destruct (log_handle f) as [h|] eqn:Hh; [|apply steps_refl].
  unfold close. apply wp_if_log. rewrite Hh.
  cbn in Hlog. pose proof (Hkind (name h) (eq_sym Hlog)) as Hc.
  apply wp_bind, wp_attempt.
  - intros _. apply wp_update. split; [cbn; now rewrite Hh|].
    split; [rewrite Hh; discriminate|].
    exists [Close (name h)]. cbn. split; [reflexivity|]. now constructor.
  - intros c _. split; [reflexivity|]. split; [reflexivity|].
    exists [Close (name h)]. split; [reflexivity|]. now constructor.
Qed.

End Steppers.

Lemma stepper_weaken {A} (kind kind' : Event -> Prop) (log : option path) (m : T A) :
  (forall e, kind e -> kind' e) -> stepper kind log m -> stepper kind' log m.
Proof.
  intros H Hm f Hlog. eapply wp_conseq; [|exact (Hm f Hlog)].
  cbn beta. intros _ f'. now apply steps_weaken.
Qed.

(** The stdout loop makes events of the stdout phase only, on every path. *)
Lemma read_stdout_stepper (rt : Py.Runtime) (os : OS) (self : Executor)
    (on_output : option Callable) (log : option path) (stream : list bytes) :
  forall acc,
    stepper (stdout_phase self on_output log) log
      (read_stdout rt os self on_output stream acc).
Proof.
  assert (Hread : stdout_phase self on_output log (Readline Stdout)) by now left.
  induction stream as [|line_bytes stream' IH]; intros acc; cbn [read_stdout].
  - apply stepper_bind; [now apply stepper_readline | intros _; apply stepper_ret].
  - apply stepper_bind; [now apply stepper_readline|]. intros chunk.
    destruct (negb (nonempty chunk)); [apply stepper_ret|].
    apply stepper_bind.
    { destruct (if passthrough self then on_output else None) as [g|] eqn:Hcb;
        [|apply stepper_ret].
      apply stepper_attempt. right; left.
      exists g, (Py.decode rt chunk). now split. }
    intros _. apply stepper_bind; [|intros _; apply IH].
    apply stepper_log_text. intros p ->.
    split; right; right; exists p, (Py.decode rt chunk); auto.
Qed.

(** The stderr loop makes events of the stderr phase only, on every path. *)
Lemma read_stderr_stepper (rt : Py.Runtime) (os : OS) (log : option path)
    (stream : list bytes) :
  forall acc, stepper (stderr_phase log) log (read_stderr rt os stream acc).
Proof.
  assert (Hread : stderr_phase log (Readline Stderr)) by now left.
  induction stream as [|line_bytes stream' IH]; intros acc; cbn [read_stderr].
  - apply stepper_bind; [now apply stepper_readline | intros _; apply stepper_ret].
  - apply stepper_bind; [now apply stepper_readline|]. intros chunk.
    destruct (negb (nonempty chunk)); [apply stepper_ret|].
    apply stepper_bind; [|intros _; apply IH].
    apply stepper_log_text. intros p ->.
    split; right; exists p, (lit "[stderr] " ++ Py.decode rt chunk); auto.
Qed.

(** ** The two loops *)

Lemma over_limit_empty : over_limit [] = false.
Proof. reflexivity. Qed.

Lemma not_quiet (os : OS) (history : list Event) (e : Event) (c : string) (P : Prop) :
  raises os history e = Some c -> ~ (quiet os /\ P).
Proof. intros H [Hq _]. rewrite Hq in H. discriminate H. Qed.

Section Loops.

Variables (rt : Py.Runtime) (os : OS) (self : Executor) (on_output : option Callable).

(** One more round before the rest of the stdout loop. *)
Lemma stdout_post_round (f f1 : Frame) (acc : list str) (b : byte)
    (chunk : bytes) (stream : list bytes) (r : Result (list str)) (f' : Frame) :
  let line := Py.decode rt (b :: chunk) in
  over_limit (b :: chunk) = false ->
  log_handle f1 = log_after (log_handle f) [line] ->
  trace (world f1)
  = trace (world f)
    ++ stdout_line_events self on_output (option_map name (log_handle f)) line ->
  (forall q, files (world f1) q
             = files_after (log_handle f) (files (world f)) [line] q) ->
  stdout_post rt os self on_output f1 (acc ++ [line]) stream r f' ->
  stdout_post rt os self on_output f acc ((b :: chunk) :: stream) r f'.
Proof.
  intros line Hlim Hh Htr Hfs Hpost. unfold stdout_post in *.
  cbn [lines_read nonempty map]. fold line.
  destruct r as [lines|c].
  - cbn zeta in *. destruct Hpost as (Hl & Hh' & Htr' & Hfs').
    split; [now rewrite Hl, <- app_assoc|]. split; [|split].
    + now rewrite Hh', Hh, log_after_cons.
    + rewrite Htr', Htr, Hh, log_after_name. cbn [flat_map].
      now rewrite <- !app_assoc.
    + intros q. rewrite Hfs', Hh, <- files_after_cons.
      now apply files_after_ext.
  - intros [Hq Hw]. apply Hpost. split; [assumption|].
    now inversion Hw.
Qed.

Lemma read_stdout_wp (stream : list bytes) :
  forall acc f,
    wp (read_stdout rt os self on_output stream acc)
       (stdout_post rt os self on_output f acc stream) f.
Proof.
  induction stream as [|line_bytes stream' IH]; intros acc f; cbn [read_stdout].
  - apply wp_bind, wp_readline.
    + intros c Hc. eapply not_quiet, Hc.
    + intros _. rewrite over_limit_empty. apply wp_ret. cbn.
      rewrite app_nil_r, log_after_nil, files_after_nil. auto.
  - apply wp_bind, wp_readline; [intros c Hc; eapply not_quiet, Hc|].
    intros _. destruct (over_limit line_bytes) eqn:Hlim.
    { cbn. intros [_ Hw]. destruct line_bytes; [discriminate Hlim|].
      cbn in Hw. inversion Hw; congruence. }
    destruct line_bytes as [|b chunk]; cbn [nonempty negb].
    { apply wp_ret. cbn. rewrite app_nil_r, log_after_nil, files_after_nil. auto. }
    set (line := Py.decode rt (b :: chunk)).
    apply wp_bind.
    assert (Hrest : forall f1,
      log_handle f1 = log_handle f ->
      files (world f1) = files (world f) ->
      trace (world f1)
      = trace (world f)
        ++ Readline Stdout
           :: match (if passthrough self then on_output else None) with
              | Some g => [Call g (Py.rstrip_chars [NL] line)]
              | None => []
              end ->
      wp (_ <~ if_log (fun _ => _ <~ write os line ;; flush os) ;;
          read_stdout rt os self on_output stream' (acc ++ [line]))
         (stdout_post rt os self on_output f acc ((b :: chunk) :: stream')) f1).
    { intros f1 Hh1 Hfs1 Htr1. apply wp_bind, wp_log_text. rewrite Hh1.
      destruct (log_handle f) as [h|] eqn:Hh.
      - cbn zeta. split; [intros c Hc; eapply not_quiet, Hc|].
        intros _. split; [intros c Hc; eapply not_quiet, Hc|].
        intros _. eapply wp_conseq; [|apply IH]. cbn beta. intros r f'.
        apply stdout_post_round; trivial; cbn [log_handle world trace files].
        + now rewrite Hh.
        + rewrite Htr1, Hh. unfold stdout_line_events. cbn [option_map].
          now rewrite <- !app_assoc.
        + intros q. rewrite Hfs1, Hh. cbn [files_after log_after].
          unfold flushed, put_file. cbn [name buffer List.concat].
          destruct (String.eqb q (name h)); [|reflexivity].
          rewrite app_nil_r. now destruct (files (world f) (name h)).
      - eapply wp_conseq; [|apply IH]. cbn beta. intros r f'.
        apply stdout_post_round; trivial.
        + now rewrite Hh1, Hh.
        + rewrite Htr1, Hh. unfold stdout_line_events. cbn [option_map].
          now rewrite app_nil_r.
        + intros q. now rewrite Hfs1, Hh. }
    destruct (if passthrough self then on_output else None) as [g|].
    + apply wp_attempt; [|intros c Hc; eapply not_quiet, Hc].
      intros _. apply Hrest; cbn; trivial. now rewrite <- app_assoc.
    + apply wp_ret. apply Hrest; cbn; trivial.
Qed.

(** One more round before the rest of the stderr loop. *)
Lemma stderr_post_round (f f1 : Frame) (acc : list str) (b : byte)
    (chunk : bytes) (stream : list bytes) (r : Result (list str)) (f' : Frame) :
  let line := Py.decode rt (b :: chunk) in
  let text : str := lit "[stderr] " ++ line in
  over_limit (b :: chunk) = false ->
  log_handle f1 = log_after (log_handle f) [text] ->
  trace (world f1)
  = trace (world f) ++ stderr_line_events (option_map name (log_handle f)) line ->
  (forall q, files (world f1) q
             = files_after (log_handle f) (files (world f)) [text] q) ->
  stderr_post rt os f1 (acc ++ [line]) stream r f' ->
  stderr_post rt os f acc ((b :: chunk) :: stream) r f'.
Proof.
  intros line text Hlim Hh Htr Hfs Hpost. unfold stderr_post in *.
  cbn [lines_read nonempty map]. fold line. fold text.
  destruct r as [lines|c].
  - cbn zeta in *. destruct Hpost as (Hl & Hh' & Htr' & Hfs').
    split; [now rewrite Hl, <- app_assoc|]. split; [|split].
    + now rewrite Hh', Hh, log_after_cons.
    + rewrite Htr', Htr, Hh, log_after_name. cbn [flat_map].
      now rewrite <- !app_assoc.
    + intros q. rewrite Hfs', Hh, <- files_after_cons.
      now apply files_after_ext.
  - intros [Hq Hw]. apply Hpost. split; [assumption|].
    now inversion Hw.
Qed.

Lemma read_stderr_wp (stream : list bytes) :
  forall acc f,
    wp (read_stderr rt os stream acc) (stderr_post rt os f acc stream) f.
Proof.
  induction stream as [|line_bytes stream' IH]; intros acc f; cbn [read_stderr].
  - apply wp_bind, wp_readline.
    + intros c Hc. eapply not_quiet, Hc.
    + intros _. rewrite over_limit_empty. apply wp_ret. cbn.
      rewrite app_nil_r, log_after_nil, files_after_nil. auto.
  - apply wp_bind, wp_readline; [intros c Hc; eapply not_quiet, Hc|].
    intros _. destruct (over_limit line_bytes) eqn:Hlim.
    { cbn. intros [_ Hw]. destruct line_bytes; [discriminate Hlim|].
      cbn in Hw. inversion Hw; congruence. }
    destruct line_bytes as [|b chunk]; cbn [nonempty negb].
    { apply wp_ret. cbn. rewrite app_nil_r, log_after_nil, files_after_nil. auto. }
    set (line := Py.decode rt (b :: chunk)).
    apply wp_bind, wp_log_text. cbn [recorded log_handle world trace files].
    destruct (log_handle f) as [h|] eqn:Hh.
    + cbn zeta. split; [intros c Hc; eapply not_quiet, Hc|].
      intros _. split; [intros c Hc; eapply not_quiet, Hc|].
      intros _. eapply wp_conseq; [|apply IH]. cbn beta. intros r f'.
      apply stderr_post_round; trivial; cbn [log_handle world trace files].
      * now rewrite Hh.
      * rewrite Hh. unfold stderr_line_events. cbn [option_map].
        now rewrite <- !app_assoc.
      * intros q. rewrite Hh. cbn [files_after log_after].
        unfold flushed, put_file. cbn [name buffer List.concat].
        destruct (String.eqb q (name h)); [|reflexivity].
        rewrite app_nil_r. now destruct (files (world f) (name h)).
    + eapply wp_conseq; [|apply IH]. cbn beta. intros r f'.
      apply stderr_post_round; trivial; cbn [log_handle world trace files].
      * now rewrite Hh.
      * rewrite Hh. reflexivity.
      * intros q. now rewrite Hh.
Qed.

End Loops.

(** ** After the spawn *)

Lemma wp_const {A} (m : T A) (P : Prop) (f : Frame) :
  P -> wp m (fun _ _ => P) f.
Proof. trivial. Qed.

(** Closing the log, if there is one: the close is the one event, and the
    buffer is in the file unless the close raises. *)
Lemma wp_close (os : OS) (Q : Result unit -> Frame -> Prop) (f : Frame) :
  match log_handle f with
  | None => Q (Ok tt) f
  | Some h =>
      (forall c, raises os (trace (world f)) (Close (name h)) = Some c ->
                 Q (Err c) (recorded (Close (name h)) f))
      /\ (raises os (trace (world f)) (Close (name h)) = None ->
          Q (Ok tt)
            {| world := {| files := flushed (files (world f)) h;
                           trace := trace (world f) ++ [Close (name h)] |};
               log_handle := Some {| name := name h; buffer := [] |} |})
  end ->
  wp (if_log (fun _ => close os)) Q f.
Proof.
  intros H. apply wp_if_log. destruct (log_handle f) as [h|] eqn:Hh; [|exact H].
  destruct H as [Herr Hok]. unfold close. apply wp_if_log. rewrite Hh.
  apply wp_bind, wp_attempt; [|exact Herr].
  intros Hnone. apply wp_update. cbn. exact (Hok Hnone).
Qed.

Section AfterSpawn.

Variables (rt : Py.Runtime) (os : OS) (self : Executor).
Variables (log_file : option path) (on_output : option Callable).
Variable process : Process.

Let outs : list str := map (Py.decode rt) (lines_read (stdout process)).
Let errs : list str := map (Py.decode rt) (lines_read (stderr process)).

(** The statements under [try]. *)
Let body : T (list str * list str) :=
  output_lines <~ read_stdout rt os self on_output (stdout process) [] ;;
  error_lines <~ read_stderr rt os (stderr process) [] ;;
  _ <~ attempt os Wait ;;
  ret_T (output_lines, error_lines).

(** On every path the body makes the events of the stdout loop, then those
    of the stderr loop, then the wait, up to where it ends. *)
Lemma body_steps (f : Frame) :
  wp body
     (fun _ f' =>
        option_map name (log_handle f') = option_map name (log_handle f)
        /\ (log_handle f = None -> files (world f') = files (world f))
        /\ exists so se w,
             trace (world f') = trace (world f) ++ so ++ se ++ w
             /\ Forall (stdout_phase self on_output
                          (option_map name (log_handle f))) so
             /\ Forall (stderr_phase (option_map name (log_handle f))) se
             /\ (w = [] \/ w = [Wait])) f.
Proof.
  unfold body. apply wp_bind.
  eapply wp_conseq;
    [|exact (read_stdout_stepper rt os self on_output _ (stdout process) [] f eq_refl)].
  cbn beta. intros [ol|c] f1 (Hn1 & Hf1 & so & Ht1 & Hso).
  2:{ split; [assumption|]. split; [assumption|].
      exists so, [], []. rewrite !app_nil_r. auto. }
  apply wp_bind.
  eapply wp_conseq;
    [|exact (read_stderr_stepper rt os _ (stderr process) [] f1 eq_refl)].
  cbn beta. intros [el|c] f2 (Hn2 & Hf2 & se & Ht2 & Hse).
  2:{ split; [congruence|]. split.
      - intros Hnone. rewrite Hf2, Hf1; trivial.
        destruct (log_handle f1); [rewrite Hnone in Hn1; discriminate Hn1 | reflexivity].
      - exists so, se, []. rewrite Ht2, Ht1, app_nil_r, <- app_assoc.
        rewrite Hn1 in Hse. auto. }
  assert (Hwait : option_map name (log_handle (recorded Wait f2))
                  = option_map name (log_handle f)
                  /\ (log_handle f = None ->
                      files (world (recorded Wait f2)) = files (world f))
                  /\ exists so se w,
                       trace (world (recorded Wait f2)) = trace (world f) ++ so ++ se ++ w
                       /\ Forall (stdout_phase self on_output
                                    (option_map name (log_handle f))) so
                       /\ Forall (stderr_phase (option_map name (log_handle f))) se
                       /\ (w = [] \/ w = [Wait])).
  { split; [cbn; congruence|]. split.
    - intros Hnone. cbn. rewrite Hf2, Hf1; trivial.
      destruct (log_handle f1); [rewrite Hnone in Hn1; discriminate Hn1 | reflexivity].
    - exists so, se, [Wait]. cbn. rewrite Ht2, Ht1, <- !app_assoc.
      rewrite Hn1 in Hse. auto. }
  apply wp_bind, wp_attempt; [intros _; now apply wp_ret | intros c _; exact Hwait].
Qed.

(** When the body returns, it returns the lines of the two streams, and
    the events and the files are those of the rounds; it raises only where
    the world raises or a chunk is over the limit. *)
Lemma body_wp (f : Frame) :
  wp body
     (fun r f' =>
        match r with
        | Ok (output_lines, error_lines) =>
            output_lines = outs /\ error_lines = errs
            /\ log_handle f'
               = log_after (log_after (log_handle f) outs)
                   (map (app (lit "[stderr] ")) errs)
            /\ trace (world f')
               = trace (world f)
                 ++ flat_map (stdout_line_events self on_output
                                (option_map name (log_handle f))) outs
                 ++ [Readline Stdout]
                 ++ flat_map (stderr_line_events (option_map name (log_handle f))) errs
                 ++ [Readline Stderr; Wait]
            /\ (forall q,
                  files (world f') q
                  = files_after (log_after (log_handle f) outs)
                      (files_after (log_handle f) (files (world f)) outs)
                      (map (app (lit "[stderr] ")) errs) q)
        | Err _ =>
            ~ (quiet os /\ within_limit (lines_read (stdout process))
               /\ within_limit (lines_read (stderr process)))
        end) f.
Proof.
  unfold body. apply wp_bind.
  eapply wp_conseq; [|apply read_stdout_wp]. cbn beta.
  intros [ol|c] f1 Hpost; [|intros (Hq & Hw & _); now apply Hpost].
  cbn in Hpost. fold outs in Hpost. destruct Hpost as (-> & Hh1 & Ht1 & Hfs1).
  apply wp_bind. eapply wp_conseq; [|apply read_stderr_wp]. cbn beta.
  intros [el|c] f2 Hpost; [|intros (Hq & _ & Hw); now apply Hpost].
  cbn in Hpost. fold errs in Hpost. destruct Hpost as (-> & Hh2 & Ht2 & Hfs2).
  apply wp_bind, wp_attempt; [|intros c Hc; eapply not_quiet, Hc].
  intros _. apply wp_ret. cbn [recorded world log_handle trace files].
  split; [reflexivity|]. split; [reflexivity|]. split; [|split].
  - now rewrite Hh2, Hh1.
  - rewrite Ht2, Ht1, Hh1, log_after_name. now rewrite <- !app_assoc.
  - intros q. rewrite Hfs2, Hh1. now apply files_after_ext.
Qed.

Variable io0 : IO.

Let f0 : Frame := {| world := io0; log_handle := None |}.

(** Every path after the spawn: without a log the files are untouched and
    the events are those of the body; with a log the open comes first, and
    unless it raises the body follows and the close comes last. *)
Lemma after_spawn_steps :
  wp (after_spawn rt os self log_file on_output process)
     (fun r f' =>
        match log_file with
        | None =>
            files (world f') = files io0
            /\ exists so se w,
                 trace (world f') = trace io0 ++ so ++ se ++ w
                 /\ Forall (stdout_phase self on_output None) so
                 /\ Forall (stderr_phase None) se
                 /\ (w = [] \/ w = [Wait])
        | Some p =>
            match raises os (trace io0) (Open p) with
            | Some c => r = Err c /\ world f' = world (recorded (Open p) f0)
            | None =>
                exists so se w,
                  trace (world f') = trace io0 ++ Open p :: (so ++ se ++ w) ++ [Close p]
                  /\ Forall (stdout_phase self on_output (Some p)) so
                  /\ Forall (stderr_phase (Some p)) se
                  /\ (w = [] \/ w = [Wait])
            end
        end) f0.
Proof.
  unfold after_spawn. fold body. apply wp_bind.
  destruct log_file as [p|].
  - unfold open_w. apply wp_bind, wp_attempt; cbn [f0 world].
    + intros Hnone. rewrite Hnone. apply wp_update. cbn [f0 world files trace].
      apply wp_try_finally.
      eapply wp_conseq; [|apply body_steps]. cbn beta.
      cbn [log_handle world trace option_map name].
      intros r f1 (Hn1 & _ & so & se & w & Ht1 & Hso & Hse & Hw).
      apply wp_close. destruct (log_handle f1) as [h|]; [|discriminate Hn1].
      cbn in Hn1. injection Hn1 as Hn1.
      assert (Hshape : forall f2,
                trace (world f2) = trace (world f1) ++ [Close (name h)] ->
                exists so se w,
                  trace (world f2) = trace io0 ++ Open p :: (so ++ se ++ w) ++ [Close p]
                  /\ Forall (stdout_phase self on_output (Some p)) so
                  /\ Forall (stderr_phase (Some p)) se
                  /\ (w = [] \/ w = [Wait])).
      { intros f2 Ht2. exists so, se, w. rewrite Ht2, Ht1, Hn1.
        unfold f0. cbn [recorded world trace].
        split; [|auto]. now rewrite <- !app_assoc. }
      split.
      * intros c _. apply Hshape. reflexivity.
      * intros _. destruct r; apply Hshape; reflexivity.
    + intros c Hc. rewrite Hc. auto.
  - apply wp_ret. apply wp_try_finally.
    eapply wp_conseq; [|apply body_steps]. cbn beta. cbn [f0 log_handle world option_map].
    intros r f1 (Hn1 & Hf1 & Hshape).
    apply wp_close. destruct (log_handle f1) as [h|]; [discriminate Hn1|].
    destruct r; auto.
Qed.

(** When the statements after the spawn return, the lines, the events and
    the files are those of a call that went through; they raise only where
    the world raises or a chunk is over the limit. *)
Lemma after_spawn_wp :
  wp (after_spawn rt os self log_file on_output process)
     (fun r f' =>
        match r with
        | Ok (output_lines, error_lines) =>
            output_lines = outs /\ error_lines = errs
            /\ trace (world f')
               = trace io0
                 ++ match log_file with Some p => [Open p] | None => [] end
                 ++ flat_map (stdout_line_events self on_output log_file) outs
                 ++ [Readline Stdout]
                 ++ flat_map (stderr_line_events log_file) errs
                 ++ [Readline Stderr; Wait]
                 ++ match log_file with Some p => [Close p] | None => [] end
            /\ (forall q,
                  files (world f') q
                  = match log_file with
                    | Some p =>
                        if String.eqb q p then Some (log_text outs errs)
                        else files io0 q
                    | None => files io0 q
                    end)
        | Err _ =>
            ~ (quiet os /\ within_limit (lines_read (stdout process))
               /\ within_limit (lines_read (stderr process)))
        end) f0.
Proof.
  unfold after_spawn. fold body. apply wp_bind.
  destruct log_file as [p|].
  - unfold open_w. apply wp_bind, wp_attempt; [|intros c Hc; eapply not_quiet, Hc].
    intros _. apply wp_update. cbn [f0 world files trace].
    set (h := {| name := p; buffer := [] |}).
    apply wp_try_finally. eapply wp_conseq; [|apply body_wp]. cbn beta.
    cbn [log_handle world trace files option_map name h].
    intros [[ol el]|c] f1 Hpost.
    2:{ eapply wp_conseq; [|apply wp_const, Hpost]. cbn beta.
        intros [u|c'] f2 H; exact H. }
    destruct Hpost as (-> & -> & Hh1 & Ht1 & Hfs1).
    assert (Hlog : exists h', log_handle f1 = Some h' /\ name h' = p /\ buffer h' = []).
    { rewrite Hh1. destruct outs, errs; cbn; eauto. }
    destruct Hlog as (h' & Hh' & Hname & Hbuf).
    assert (Hfs1' : forall q, files (world f1) q
              = if String.eqb q p then Some (log_text outs errs) else files io0 q).
    { intros q. rewrite Hfs1.
      assert (Hfs0 : forall q',
                files_after (Some h) (put_file (files io0) p []) outs q'
                = if String.eqb q' p then Some (List.concat outs) else files io0 q').
      { intros q'.
        rewrite (files_after_content h _ []) by (trivial; apply put_file_same).
        cbn [name h app].
        destruct (String.eqb_spec q' p) as [->|Hq]; [reflexivity|].
        now apply put_file_other. }
      destruct (log_after (Some h) outs) as [h1|] eqn:Hh1';
        [|destruct outs; discriminate Hh1'].
      assert (Hh1'' : name h1 = p /\ buffer h1 = []).
      { destruct outs; injection Hh1' as <-; auto. }
      destruct Hh1'' as [Hn1 Hb1].
      rewrite (files_after_content h1 _ (List.concat outs)).
      - rewrite Hn1, Hfs0. now destruct (String.eqb q p).
      - assumption.
      - now rewrite Hn1, Hfs0, String.eqb_refl. }
    apply wp_close. rewrite Hh'. split; [intros c Hc; eapply not_quiet, Hc|].
    intros _. cbn [world trace files]. split; [reflexivity|]. split; [reflexivity|].
    split.
    + rewrite Ht1, Hname. unfold f0. cbn [recorded world trace].
      now rewrite <- !app_assoc.
    + intros q. unfold flushed, put_file. rewrite Hname, Hbuf, !Hfs1'.
      rewrite String.eqb_refl, app_nil_r. now destruct (String.eqb q p).
  - apply wp_ret. apply wp_try_finally. eapply wp_conseq; [|apply body_wp].
    cbn beta. cbn [f0 log_handle world trace files option_map].
    intros [[ol el]|c] f1 Hpost.
    2:{ eapply wp_conseq; [|apply wp_const, Hpost]. cbn beta.
        intros [u|c'] f2 H; exact H. }
    destruct Hpost as (-> & -> & Hh1 & Ht1 & Hfs1).
    apply wp_close. rewrite Hh1. cbn [log_after].
    split; [reflexivity|]. split; [reflexivity|]. split.
    + rewrite Ht1. reflexivity.
    + intros q. now rewrite Hfs1.
Qed.

End AfterSpawn.

(** ** A call of [run] *)

Lemma bind_run {A B} (m : M A) (k : A -> M B) (io io' : IO) (a : A) :
  m io = (a, io') -> bind m k io = k a io'.
Proof. unfold bind. now intros ->. Qed.

Lemma emit_run (e : Event) (io : IO) :
  emit e io = (tt, {| files := files io; trace := trace io ++ [e] |}).
Proof. reflexivity. Qed.

Section Run.

Variables (rt : Py.Runtime) (os : OS) (self : Executor) (command : str).
Variables (first_run resume : bool).
Variables (log_file : option path) (on_output : option Callable).

Let args : list str := _build_args self command first_run resume.

(** A call whose spawn fails does the spawn and nothing else. *)
Lemma run_spawn_failed (failure : SpawnFailure) (io : IO) :
  create_subprocess_exec os args = inl failure ->
  run rt os self command first_run resume log_file on_output io
  = ((Raises match failure with
             | FileNotFoundError =>
                 ExecutionError
                   (lit "Claude Code not found. Please ensure 'claude' is installed and in PATH.")
             | PermissionError =>
                 ExecutionError (lit "Permission denied when running Claude Code.")
             | OtherFailure class_name => Uncaught class_name
             end,
      self),
     {| files := files io; trace := trace io ++ [Spawn args] |}).
Proof.
  intros Hspawn. unfold run.
  rewrite (bind_run _ _ _ _ _ (emit_run _ io)). fold args. rewrite Hspawn.
  now destruct failure.
Qed.

Variable process : Process.

Let outs : list str := map (Py.decode rt) (lines_read (stdout process)).
Let errs : list str := map (Py.decode rt) (lines_read (stderr process)).
Let found : option str :=
  if first_run && truthy (session_name self)
  then _extract_session_id rt (List.concat outs) else None.

Variable io : IO.

Let io0 : IO := {| files := files io; trace := trace io ++ [Spawn args] |}.
Let f0 : Frame := {| world := io0; log_handle := None |}.

(** A call whose process was spawned is what comes after the spawn. *)
Lemma run_spawned :
  create_subprocess_exec os args = inr process ->
  run rt os self command first_run resume log_file on_output io
  = match after_spawn rt os self log_file on_output process f0 with
    | (Err class_name, f) => ((Raises (Uncaught class_name), self), world f)
    | (Ok (output_lines, error_lines), f) =>
        let session_id :=
          if first_run && truthy (session_name self)
          then _extract_session_id rt (List.concat output_lines) else None in
        ((Returns {| output := List.concat output_lines;
                     exit_code := or_zero (returncode process);
                     session_id := session_id;
                     duration_seconds := PrimFloat.sub (time_after os) (time_before os);
                     error_output := List.concat error_lines |},
          if first_run && truthy (session_name self) && truthy session_id
          then set_session_id self session_id else self),
         world f)
    end.
Proof.
  intros Hspawn. unfold run.
  rewrite (bind_run _ _ _ _ _ (emit_run _ io)). fold args. rewrite Hspawn.
  fold io0. fold f0.
  destruct (after_spawn rt os self log_file on_output process f0)
    as [[[ol el]|c] f]; reflexivity.
Qed.

(** A call that returns: its result, the executor, the events and the files. *)
Lemma run_returned (result : ExecutionResult) (self' : Executor) (io' : IO) :
  create_subprocess_exec os args = inr process ->
  run rt os self command first_run resume log_file on_output io
  = ((Returns result, self'), io') ->
  result = {| output := List.concat outs;
              exit_code := or_zero (returncode process);
              session_id := found;
              duration_seconds := PrimFloat.sub (time_after os) (time_before os);
              error_output := List.concat errs |}
  /\ self' = (if first_run && truthy (session_name self) && truthy found
              then set_session_id self found else self)
  /\ trace io' = trace io ++ run_events self args log_file on_output outs errs
  /\ (forall q,
        files io' q
        = match log_file with
          | Some p => if String.eqb q p then Some (log_text outs errs) else files io q
          | None => files io q
          end).
Proof.
  intros Hspawn Hrun. rewrite (run_spawned Hspawn) in Hrun.
  pose proof (after_spawn_wp rt os self log_file on_output process io0) as Hwp.
  unfold wp in Hwp. fold f0 in Hwp.
  destruct (after_spawn rt os self log_file on_output process f0)
    as [[[ol el]|c] f]; [|discriminate Hrun].
  cbn [fst snd] in Hwp. destruct Hwp as (-> & -> & Htr & Hfs).
  cbn zeta in Hrun. injection Hrun as <- <- <-.
  fold outs errs found. split; [reflexivity|]. split; [reflexivity|]. split.
  - rewrite Htr. unfold run_events, io0. cbn [trace].
    now rewrite <- !app_assoc.
  - exact Hfs.
Qed.

(** A call that raises after the spawn raises what was raised to it, and
    leaves the executor as it was. *)
Lemma run_raised (e : Raised) (self' : Executor) (io' : IO) :
  create_subprocess_exec os args = inr process ->
  run rt os self command first_run resume log_file on_output io
  = ((Raises e, self'), io') ->
  self' = self
  /\ (exists class_name, e = Uncaught class_name)
  /\ ~ (quiet os /\ within_limit (lines_read (stdout process))
        /\ within_limit (lines_read (stderr process))).
Proof.
  intros Hspawn Hrun. rewrite (run_spawned Hspawn) in Hrun.
  pose proof (after_spawn_wp rt os self log_file on_output process io0) as Hwp.
  unfold wp in Hwp. fold f0 in Hwp.
  destruct (after_spawn rt os self log_file on_output process f0)
    as [[[ol el]|c] f]; [discriminate Hrun|].
  injection Hrun as <- <- _. cbn [fst snd] in Hwp. eauto.
Qed.

(** In a world where nothing raises and no chunk is over the limit, a call
    whose process was spawned returns. *)
Lemma run_returns :
  create_subprocess_exec os args = inr process ->
  quiet os ->
  within_limit (lines_read (stdout process)) ->
  within_limit (lines_read (stderr process)) ->
  exists result,
    fst (fst (run rt os self command first_run resume log_file on_output io))
    = Returns result.
Proof.
  intros Hspawn Hq Hout Herr. rewrite (run_spawned Hspawn).
  pose proof (after_spawn_wp rt os self log_file on_output process io0) as Hwp.
  unfold wp in Hwp. fold f0 in Hwp.
  destruct (after_spawn rt os self log_file on_output process f0)
    as [[[ol el]|c] f]; cbn [fst snd] in *.
  - eexists. reflexivity.
  - exfalso. apply Hwp. auto.
Qed.

(** Every path of a call whose process was spawned. *)
Lemma run_spawned_steps :
  create_subprocess_exec os args = inr process ->
  let r := run rt os self command first_run resume log_file on_output io in
  match log_file with
  | None =>
      files (snd r) = files io
      /\ exists so se w,
           trace (snd r) = (trace io ++ [Spawn args]) ++ so ++ se ++ w
           /\ Forall (stdout_phase self on_output None) so
           /\ Forall (stderr_phase None) se
           /\ (w = [] \/ w = [Wait])
  | Some p =>
      match raises os (trace io ++ [Spawn args]) (Open p) with
      | Some c =>
          fst (fst r) = Raises (Uncaught c)
          /\ files (snd r) = files io
          /\ trace (snd r) = (trace io ++ [Spawn args]) ++ [Open p]
      | None =>
          exists so se w,
            trace (snd r)
            = (trace io ++ [Spawn args]) ++ Open p :: (so ++ se ++ w) ++ [Close p]
            /\ Forall (stdout_phase self on_output (Some p)) so
            /\ Forall (stderr_phase (Some p)) se
            /\ (w = [] \/ w = [Wait])
      end
  end.
Proof.
  intros Hspawn. cbn zeta. rewrite (run_spawned Hspawn).
  pose proof (after_spawn_steps rt os self log_file on_output process io0) as Hwp.
  unfold wp in Hwp. fold f0 in Hwp.
  destruct (after_spawn rt os self log_file on_output process f0) as [r f].
  cbn [fst snd] in Hwp.
  assert (Hworld : snd (match r with
                        | Ok (output_lines, error_lines) =>
                            let session_id :=
                              if first_run && truthy (session_name self)
                              then _extract_session_id rt (List.concat output_lines)
                              else None in
                            ((Returns {| output := List.concat output_lines;
                                         exit_code := or_zero (returncode process);
                                         session_id := session_id;
                                         duration_seconds :=
                                           PrimFloat.sub (time_after os) (time_before os);
                                         error_output := List.concat error_lines |},
                              if first_run && truthy (session_name self)
                                 && truthy session_id
                              then set_session_id self session_id else self),
                             world f)
                        | Err class_name => ((Raises (Uncaught class_name), self), world f)
                        end) = world f)
    by now destruct r as [[ol el]|c].
  destruct log_file as [p|].
  - unfold io0 in Hwp at 1. cbn [trace] in Hwp.
    destruct (raises os (trace io ++ [Spawn args]) (Open p)) as [c|].
    + destruct Hwp as [-> Hw]. cbn [fst snd]. rewrite Hw. now cbn.
    + rewrite Hworld. exact Hwp.
  - rewrite Hworld. exact Hwp.
Qed.

End Run.

Lemma lines_read_all (stream : list bytes) :
  Forall (fun chunk => chunk <> []) stream -> lines_read stream = stream.
Proof.
  induction 1 as [|chunk stream Hc _ IH]; [reflexivity|].
  cbn. destruct chunk; [contradiction|]. cbn. now rewrite IH.
Qed.

Lemma extract_nonempty (rt : Py.Runtime) (output sid : str) :
  _extract_session_id rt output = Some sid -> truthy (Some sid) = true.
Proof.
  intros H. apply first_session_line_found in H.
  destruct H as (_ & _ & _ & _ & _ & ([Hlen _] & _) & _).
  destruct sid; [cbn in Hlen; lia | reflexivity].
Qed.

Lemma within_limit_read (stream : list bytes) :
  within_limit stream -> within_limit (lines_read stream).
Proof.
  induction 1 as [|chunk stream Hc _ IH]; [constructor|].
  cbn. destruct (nonempty chunk); now constructor.
Qed.

(** ** The session identifier across calls *)

(** The events of every call start with the spawn. *)
Lemma run_trace_start (rt : Py.Runtime) (os : OS) (self : Executor) (command : str)
    (first_run resume : bool) (log_file : option path)
    (on_output : option Callable) (io : IO) :
  exists rest,
    trace (snd (run rt os self command first_run resume log_file on_output io))
    = trace io ++ Spawn (_build_args self command first_run resume) :: rest.
Proof.
  destruct (create_subprocess_exec os (_build_args self command first_run resume))
    as [failure|process] eqn:Hspawn.
  - rewrite (run_spawn_failed rt os self command first_run resume
               log_file on_output failure io Hspawn).
    now exists [].
  - pose proof (run_spawned_steps rt os self command first_run resume
                  log_file on_output process io Hspawn) as Hsteps.
    cbn zeta in Hsteps. destruct log_file as [p|].
    + destruct (raises os _ (Open p)) as [c|].
      * destruct Hsteps as (_ & _ & ->). exists [Open p]. now rewrite <- app_assoc.
      * destruct Hsteps as (so & se & w & -> & _).
        eexists. now rewrite <- app_assoc.
    + destruct Hsteps as (_ & so & se & w & -> & _).
      eexists. now rewrite <- app_assoc.
Qed.

(** The executor after a call: the one before, or the one before with the
    identifier that the call found and reports. *)
(** The executor after a call: the one before, or the one before with the
    identifier that the call found and reports. *)
Lemma run_self_cases (rt : Py.Runtime) (os : OS) (self : Executor) (command : str)
    (first_run resume : bool) (log_file : option path)
    (on_output : option Callable) (io : IO)
    (outcome : Outcome) (self' : Executor) (io' : IO) :
  run rt os self command first_run resume log_file on_output io
  = ((outcome, self'), io') ->
  (self' = self
   /\ match outcome with
      | Returns result => session_id result = None
      | Raises _ => True
      end)
  \/ (exists result sid,
        outcome = Returns result
        /\ session_id result = Some sid
        /\ first_run = true
        /\ truthy (session_name self) = true
        /\ _extract_session_id rt (output result) = Some sid
        /\ self' = set_session_id self (Some sid)).
Proof.
  intros Hrun.
  destruct (create_subprocess_exec os (_build_args self command first_run resume))
    as [failure|process] eqn:Hspawn.
  - rewrite (run_spawn_failed rt os self command first_run resume
               log_file on_output failure io Hspawn) in Hrun.
    injection Hrun as <- <- _. now left.
  - destruct outcome as [result|e].
    + destruct (run_returned rt os self command first_run resume log_file on_output
                  process io result self' io' Hspawn Hrun) as (-> & -> & _).
      destruct first_run; [|now left].
      destruct (truthy (session_name self)); [|now left].
      cbn [andb session_id output].
      destruct (_extract_session_id rt _) as [sid|] eqn:Hsid; [|now left].
      right. rewrite (extract_nonempty _ _ _ Hsid).
      eexists _, sid. repeat split. exact Hsid.
    + destruct (run_raised rt os self command first_run resume log_file on_output
                  process io e self' io' Hspawn Hrun) as (-> & _).
      now left.
Qed.

(** C5: a call changes the cached identifier only if first_run is set, a
    session name is configured and the extraction finds an identifier in the
    output, and then it caches that one; in every other case, a first run
    whose extraction finds nothing and a failed spawn among them, the cache is
    as before.  The vector handed to the spawn ends in --session and an
    identifier only if resume is set and that identifier is the cached one;
    when resume is not set or nothing is cached, the vector is the base one,
    with --print-session-id after it or not. *)
Theorem C5_session_cache_discipline :
  forall (rt : Py.Runtime) (os : OS) (self : Executor) (command : str)
         (first_run resume : bool) (log_file : option path)
         (on_output : option Callable) (io : IO)
         (outcome : Outcome) (self' : Executor) (io' : IO),
    run rt os self command first_run resume log_file on_output io
    = ((outcome, self'), io') ->
    let args := _build_args self command first_run resume in
    let base := [lit "claude"; lit "--print"; command] in
    (_session_id self' <> _session_id self ->
       first_run = true /\ truthy (session_name self) = true
       /\ exists result sid,
            outcome = Returns result
            /\ _extract_session_id rt (output result) = Some sid
            /\ _session_id self' = Some sid)
    /\ (first_run = false \/ truthy (session_name self) = false
        \/ (forall result, outcome = Returns result ->
              _extract_session_id rt (output result) = None) ->
        _session_id self' = _session_id self)
    /\ (forall result sid,
          first_run = true -> truthy (session_name self) = true ->
          outcome = Returns result ->
          _extract_session_id rt (output result) = Some sid ->
          _session_id self' = Some sid)
    /\ (exists rest, trace io' = trace io ++ Spawn args :: rest)
    /\ (forall sid, args = base ++ [lit "--session"; sid] ->
          resume = true /\ _session_id self = Some sid /\ sid <> [])
    /\ (resume = false \/ truthy (_session_id self) = false ->
          args = base \/ args = base ++ [lit "--print-session-id"]).
Proof.
  intros rt os self command first_run resume log_file on_output io
         outcome self' io' Hrun args base.
  assert (Hargs := build_args_cases self command first_run resume).
  cbn zeta in Hargs. fold args base in Hargs.
  assert (Hcache :
    (_session_id self' = _session_id self
     /\ (first_run = false \/ truthy (session_name self) = false
         \/ (exists e, outcome = Raises e)
         \/ (exists result, outcome = Returns result
               /\ _extract_session_id rt (output result) = None)))
    \/ (first_run = true /\ truthy (session_name self) = true
        /\ exists result sid,
             outcome = Returns result
             /\ _extract_session_id rt (output result) = Some sid
             /\ _session_id self' = Some sid)).
  { destruct (run_self_cases _ _ _ _ _ _ _ _ _ _ _ _ Hrun)
      as [[-> Hnone]|(result & sid & -> & Hsid & Hfr & Hname & Hex & ->)].
    - left. split; [reflexivity|]. destruct outcome as [result|e]; [|eauto].
      destruct (create_subprocess_exec os (_build_args self command first_run resume))
        as [failure|process] eqn:Hspawn.
      + rewrite (run_spawn_failed rt os self command first_run resume
                   log_file on_output failure io Hspawn) in Hrun.
        discriminate Hrun.
      + destruct (run_returned rt os self command first_run resume log_file
                    on_output process io result self io' Hspawn Hrun) as (Hres & _).
        rewrite Hres in Hnone. cbn [session_id] in Hnone.
        destruct first_run; [|auto].
        destruct (truthy (session_name self)); [|auto].
        cbn [andb] in Hnone. right; right; right. exists result.
        split; [reflexivity|]. rewrite Hres at 1. exact Hnone.
    - right. repeat split; trivial. exists result, sid. auto. }
  split; [|split; [|split; [|split; [|split]]]].
  - intros Hneq. destruct Hcache as [[Heq _]|H]; [contradiction | exact H].
  - intros Hcase. destruct Hcache as [[Heq _]|(Hfr & Hname & result & sid & Hout & Hsid & _)];
      [exact Heq|].
    destruct Hcase as [H|[H|H]]; try congruence.
    rewrite (H _ Hout) in Hsid. discriminate Hsid.
  - intros result sid Hfr Hname Hout Hsid.
    destruct Hcache as [[_ H]|(_ & _ & result' & sid' & Hout' & Hsid' & Hself')].
    + destruct H as [H|[H|[[e H]|(result' & Hout' & Hnone)]]]; try congruence.
    + congruence.
  - destruct (run_trace_start rt os self command first_run resume log_file
                on_output io) as (rest & Htr).
    rewrite Hrun in Htr. now exists rest.
  - intros sid Hsid.
    destruct Hargs as [H|[[H _]|(sid' & H & _ & Hres & _ & Hid & Hne)]];
      rewrite H in Hsid; unfold base in Hsid; cbn [app] in Hsid;
      try discriminate Hsid.
    injection Hsid as ->. auto.
  - intros Hno.
    destruct Hargs as [H|[[H _]|(sid & H & _ & Hres & _ & Hid & Hne)]]; auto.
    exfalso. destruct Hno as [Hno|Hno]; [congruence|].
    rewrite Hid in Hno. destruct sid; [contradiction | discriminate Hno].
Qed.

(** A first run whose output holds a UUID line caches it. *)
Lemma C5_session_cache_discipline_witness :
  _session_id
    (snd (fst (run ascii_runtime
                 (os_of (inr (process_of
                                ["Session started"%string;
                                 "550e8400-e29b-41d4-a716-446655440000"%string]
                                [] 0)))
                 (Executor_init (Some (lit "my-session")) false)
                 (lit "test") true false None None io_empty)))
  = Some uuid_line.
Proof.
  set (r := run _ _ _ _ _ _ _ _ _).
  assert (Hrun : r = ((fst (fst r), snd (fst r)), snd r)) by now destruct r as [[? ?] ?].
  unfold r in Hrun at 1.
  eapply (proj1 (proj2 (proj2 (C5_session_cache_discipline _ _ _ _ _ _ _ _ _ _ _ _ Hrun)))).
  - reflexivity.
  - reflexivity.
  - vm_compute; reflexivity.
  - vm_compute; reflexivity.
Defined.

(** ** Output, log and callback *)

Lemma filter_flat_map {A B} (keep : B -> bool) (f g : A -> list B) (l : list A) :
  (forall a, filter keep (f a) = g a) ->
  filter keep (flat_map f l) = flat_map g l.
Proof.
  intros H. induction l as [|a l IH]; [reflexivity|].
  cbn. now rewrite filter_app, H, IH.
Qed.

Lemma flat_map_nil {A B} (l : list A) : flat_map (fun _ => @nil B) l = [].
Proof. now induction l. Qed.

Lemma flat_map_singleton {A B} (f : A -> B) (l : list A) :
  flat_map (fun a => [f a]) l = map f l.
Proof. induction l as [|a l IH]; [reflexivity|]. cbn. now rewrite IH. Qed.

Lemma nonempty_chunks_check (stream : list bytes) :
  forallb nonempty stream = true -> Forall (fun chunk => chunk <> []) stream.
Proof.
  rewrite forallb_forall, Forall_forall. intros H chunk Hin.
  apply H in Hin. now destruct chunk.
Qed.

Lemma within_limit_check (stream : list bytes) :
  forallb (fun chunk => negb (over_limit chunk)) stream = true ->
  within_limit stream.
Proof.
  unfold within_limit. rewrite forallb_forall, Forall_forall. intros H chunk Hin.
  apply H in Hin. now apply negb_true_iff.
Qed.

Lemma quiet_os_of (spawned : SpawnFailure + Process) : quiet (os_of spawned).
Proof. intros history e. reflexivity. Qed.

Lemma returned_eq {X Y} (r : Outcome * X * Y) (result : ExecutionResult) :
  fst (fst r) = Returns result -> r = ((Returns result, snd (fst r)), snd r).
Proof. destruct r as [[outcome x] y]. cbn. now intros ->. Qed.

(** C6: when the process was spawned, a result the call returns has as its
    output the concatenation of the decoded stdout lines in the order read,
    and as its error output the concatenation of the decoded stderr lines in
    the order read: neither depends on the other stream.  And the call does
    return a result when nothing raises after the spawn: no operation of the
    world, and no line over the readers' limit. *)
Theorem C6_streams_accumulate_separately :
  forall (rt : Py.Runtime) (os : OS) (self : Executor) (command : str)
         (first_run resume : bool) (log_file : option path)
         (on_output : option Callable) (io : IO) (process : Process),
    create_subprocess_exec os (_build_args self command first_run resume)
    = inr process ->
    Forall (fun chunk => chunk <> []) (stdout process) ->
    Forall (fun chunk => chunk <> []) (stderr process) ->
    (forall result self' io',
        run rt os self command first_run resume log_file on_output io
        = ((Returns result, self'), io') ->
        output result = List.concat (map (Py.decode rt) (stdout process))
        /\ error_output result = List.concat (map (Py.decode rt) (stderr process)))
    /\ (quiet os ->
        within_limit (stdout process) -> within_limit (stderr process) ->
        exists result,
          fst (fst (run rt os self command first_run resume log_file on_output io))
          = Returns result).
Proof.
  intros rt os self command first_run resume log_file on_output io process
         Hspawn Hout Herr.
  split.
  - intros result self' io' Hrun.
    destruct (run_returned rt os self command first_run resume log_file on_output
                process io result self' io' Hspawn Hrun) as (-> & _).
    rewrite (lines_read_all _ Hout), (lines_read_all _ Herr). now split.
  - intros Hq Hlo Hle.
    apply (run_returns rt os self command first_run resume log_file on_output
             process io Hspawn Hq); now apply within_limit_read.
Qed.

(** The two lines of the tests, and one line on stderr. *)
Lemma C6_streams_accumulate_separately_witness :
  exists result,
    fst (fst (run ascii_runtime
                (os_of (inr (process_of ["line 1"%string; "line 2"%string]
                                        ["oops"%string] 0)))
                (Executor_init None false) (lit "test") false false None None
                io_empty))
    = Returns result
    /\ output result = lit (with_nl "line 1" ++ with_nl "line 2")
    /\ error_output result = lit (with_nl "oops").
Proof.
  pose (process := process_of ["line 1"%string; "line 2"%string] ["oops"%string] 0).
  destruct (C6_streams_accumulate_separately ascii_runtime
              (os_of (inr process))
              (Executor_init None false) (lit "test") false false None None io_empty
              process eq_refl) as [Hfields Hreturns].
  - apply nonempty_chunks_check. vm_compute; reflexivity.
  - apply nonempty_chunks_check. vm_compute; reflexivity.
  - destruct Hreturns as (result & Hres).
    + apply quiet_os_of.
    + apply within_limit_check. vm_compute; reflexivity.
    + apply within_limit_check. vm_compute; reflexivity.
    + exists result. split; [exact Hres|].
      exact (Hfields _ _ _ (returned_eq _ _ Hres)).
Defined.

Lemma file_events_stdout (self : Executor) (on_output : option Callable)
    (p : path) (outs : list str) :
  filter is_file_event (flat_map (stdout_line_events self on_output (Some p)) outs)
  = flat_map (fun line => [Write p line; Flush p]) outs.
Proof.
  apply filter_flat_map. intros line. unfold stdout_line_events.
  now destruct (if passthrough self then on_output else None).
Qed.

Lemma file_events_stderr (p : path) (errs : list str) :
  filter is_file_event (flat_map (stderr_line_events (Some p)) errs)
  = flat_map (fun line => [Write p (lit "[stderr] " ++ line); Flush p]) errs.
Proof. now apply filter_flat_map. Qed.

(** C7, amended: with a log file given and the process spawned, after a
    call that returns a result the file holds the decoded stdout lines as
    they are, in the order read, and after them the decoded stderr lines,
    each with the marker before it, in the order read, whatever it held
    before; the other files are as before; and the file was opened for
    writing once, first, then each line was written and flushed, then it was
    closed.  And the call does return when nothing raises after the spawn:
    no operation of the world, the open among them, and no line over the
    readers' limit. *)
Theorem C7_log_contents :
  forall (rt : Py.Runtime) (os : OS) (self : Executor) (command : str)
         (first_run resume : bool) (p : path)
         (on_output : option Callable) (io : IO) (process : Process),
    create_subprocess_exec os (_build_args self command first_run resume)
    = inr process ->
    Forall (fun chunk => chunk <> []) (stdout process) ->
    Forall (fun chunk => chunk <> []) (stderr process) ->
    let outs := map (Py.decode rt) (stdout process) in
    let errs := map (Py.decode rt) (stderr process) in
    (forall result self' io',
        run rt os self command first_run resume (Some p) on_output io
        = ((Returns result, self'), io') ->
        files io' p
        = Some (List.concat outs
                ++ List.concat (map (fun line => lit "[stderr] " ++ line) errs))
        /\ (forall q, q <> p -> files io' q = files io q)
        /\ exists events,
             trace io' = trace io ++ events
             /\ filter is_file_event events
                = Open p
                  :: flat_map (fun line => [Write p line; Flush p]) outs
                  ++ flat_map (fun line => [Write p (lit "[stderr] " ++ line); Flush p]) errs
                  ++ [Close p])
    /\ (quiet os ->
        within_limit (stdout process) -> within_limit (stderr process) ->
        exists result,
          fst (fst (run rt os self command first_run resume (Some p) on_output io))
          = Returns result).
Proof.
  intros rt os self command first_run resume p on_output io process
         Hspawn Hout Herr outs errs.
  split.
  - intros result self' io' Hrun.
    destruct (run_returned rt os self command first_run resume (Some p) on_output
                process io result self' io' Hspawn Hrun) as (_ & _ & Htr & Hfs).
    rewrite (lines_read_all _ Hout), (lines_read_all _ Herr) in Htr, Hfs.
    fold outs errs in Htr, Hfs. split; [|split].
    + now rewrite Hfs, String.eqb_refl.
    + intros q Hq. rewrite Hfs. apply String.eqb_neq in Hq. now rewrite Hq.
    + eexists. split; [exact Htr|].
      unfold run_events. cbn [filter is_file_event app].
      rewrite filter_app, file_events_stdout. cbn [filter is_file_event].
      rewrite filter_app, file_events_stderr. reflexivity.
  - intros Hq Hlo Hle.
    apply (run_returns rt os self command first_run resume (Some p) on_output
             process io Hspawn Hq); now apply within_limit_read.
Qed.

(** A log that held a text before the call holds the two lines after it. *)
Lemma C7_log_contents_witness :
  files (snd (run ascii_runtime
                (os_of (inr (process_of ["logged output"%string] ["warning"%string] 0)))
                (Executor_init None false) (lit "test") false false
                (Some "test.txt"%string) None
                (io_with "test.txt"%string (lit "left from an earlier call"))))
        "test.txt"%string
  = Some (lit (with_nl "logged output" ++ "[stderr] " ++ with_nl "warning")).
Proof.
  pose (process := process_of ["logged output"%string] ["warning"%string] 0).
  pose (io := io_with "test.txt"%string (lit "left from an earlier call")).
  destruct (C7_log_contents ascii_runtime (os_of (inr process))
              (Executor_init None false) (lit "test") false false
              "test.txt"%string None io process eq_refl) as [Hfiles Hreturns].
  - apply nonempty_chunks_check. vm_compute; reflexivity.
  - apply nonempty_chunks_check. vm_compute; reflexivity.
  - destruct Hreturns as (result & Hres).
    + apply quiet_os_of.
    + apply within_limit_check. vm_compute; reflexivity.
    + apply within_limit_check. vm_compute; reflexivity.
    + exact (proj1 (Hfiles _ _ _ (returned_eq _ _ Hres))).
Defined.

(** A chunk that starts with [n] bytes other than a newline has them all
    before its first newline. *)
Lemma before_newline_repeat (b : byte) (n : nat) (rest : bytes) :
  Byte.to_N b <> 10 ->
  before_newline (repeat b n ++ rest) = N.of_nat n + before_newline rest.
Proof.
  intros Hb. induction n as [|n IH]; [reflexivity|].
  cbn [repeat app before_newline]. apply N.eqb_neq in Hb. rewrite Hb, IH. lia.
Qed.

Lemma long_line_over : over_limit long_line = true.
Proof.
  unfold over_limit, long_line.
  rewrite before_newline_repeat by (vm_compute; discriminate).
  rewrite N2Nat.id. reflexivity.
Qed.

(** C7 as worded fails on a call that raises while it reads: the second
    line of stdout has 70000 characters before its newline, [readline]
    raises ValueError on it, the [finally] closes the log, and the log holds
    the first line only, neither the long line nor the line of stderr. *)
Lemma C7_counterexample_long_line :
  fst (fst (run ascii_runtime (os_of (inr long_line_process))
              (Executor_init None false) (lit "test") false false
              (Some "test.txt"%string) None io_empty))
  = Raises (Uncaught "ValueError")
  /\ files (snd (run ascii_runtime (os_of (inr long_line_process))
                   (Executor_init None false) (lit "test") false false
                   (Some "test.txt"%string) None io_empty))
           "test.txt"%string
     = Some (lit (with_nl "logged output"))
  /\ Some (lit (with_nl "logged output"))
     <> Some (log_text (map (Py.decode ascii_runtime) (stdout long_line_process))
                       (map (Py.decode ascii_runtime) (stderr long_line_process))).
Proof.
  pose proof long_line_over as Hover. unfold long_line_process.
  revert Hover. generalize long_line. intros long Hover.
  cbn [stdout stderr map]. vm_compute in Hover.
  split; [vm_compute; rewrite Hover; reflexivity|].
  split; [vm_compute; rewrite Hover; reflexivity|].
  intros H. injection H as H. apply (f_equal (@List.length char)) in H.
  unfold log_text in H. cbn [List.concat map] in H.
  rewrite !length_app in H. cbn [List.length lit with_nl] in H.
  lia.
Qed.

Lemma call_events_stdout (self : Executor) (on_output : option Callable)
    (log : option path) (outs : list str) :
  filter is_call (flat_map (stdout_line_events self on_output log) outs)
  = match (if passthrough self then on_output else None) with
    | Some f => map (fun line => Call f (Py.rstrip_chars [NL] line)) outs
    | None => []
    end.
Proof.
  destruct (if passthrough self then on_output else None) as [f|] eqn:Hf.
  - rewrite <- flat_map_singleton. apply filter_flat_map. intros line.
    unfold stdout_line_events. rewrite Hf. now destruct log.
  - rewrite <- (flat_map_nil outs). apply filter_flat_map. intros line.
    unfold stdout_line_events. rewrite Hf. now destruct log.
Qed.

Lemma call_events_stderr (log : option path) (errs : list str) :
  filter is_call (flat_map (stderr_line_events log) errs) = [].
Proof.
  rewrite <- (flat_map_nil errs). apply filter_flat_map. intros line.
  now destruct log.
Qed.

Lemma run_events_calls (self : Executor) (args : list str) (log_file : option path)
    (on_output : option Callable) (outs errs : list str) :
  filter is_call (run_events self args log_file on_output outs errs)
  = match (if passthrough self then on_output else None) with
    | Some f => map (fun line => Call f (Py.rstrip_chars [NL] line)) outs
    | None => []
    end.
Proof.
  unfold run_events. cbn [filter is_call]. rewrite filter_app.
  assert (Hopen : filter is_call
                    match log_file with Some p => [Open p] | None => [] end = [])
    by now destruct log_file.
  rewrite Hopen, filter_app, call_events_stdout. cbn [filter is_call app].
  rewrite filter_app, call_events_stderr. cbn [filter is_call app].
  assert (Hclose : filter is_call
                     match log_file with Some p => [Close p] | None => [] end = [])
    by now destruct log_file.
  now rewrite Hclose, app_nil_r.
Qed.

(** C8, amended: when the process was spawned, the calls of the caller's
    function in a call that returns a result are, if passthrough is on and a
    function was given, one per stdout line, in the order read, each with the
    decoded line less its trailing newlines, and none otherwise; no stderr
    line leads to a call.  A line that ends in its one newline is passed
    without it.  And the call does return when nothing raises after the
    spawn: no operation of the world, the caller's function among them, and
    no line over the readers' limit. *)
Theorem C8_callback_per_stdout_line :
  forall (rt : Py.Runtime) (os : OS) (self : Executor) (command : str)
         (first_run resume : bool) (log_file : option path)
         (on_output : option Callable) (io : IO) (process : Process),
    create_subprocess_exec os (_build_args self command first_run resume)
    = inr process ->
    Forall (fun chunk => chunk <> []) (stdout process) ->
    (forall result self' io',
        run rt os self command first_run resume log_file on_output io
        = ((Returns result, self'), io') ->
        exists events,
          trace io' = trace io ++ events
          /\ filter is_call events
             = match on_output with
               | Some f =>
                   if passthrough self
                   then map (fun chunk =>
                               Call f (Py.rstrip_chars [NL] (Py.decode rt chunk)))
                            (stdout process)
                   else []
               | None => []
               end)
    /\ (forall body, ~ In NL body -> Py.rstrip_chars [NL] (body ++ [NL]) = body)
    /\ (quiet os ->
        within_limit (stdout process) -> within_limit (stderr process) ->
        exists result,
          fst (fst (run rt os self command first_run resume log_file on_output io))
          = Returns result).
Proof.
  intros rt os self command first_run resume log_file on_output io process
         Hspawn Hout.
  split; [|split; [exact rstrip_newline|]].
  - intros result self' io' Hrun.
    destruct (run_returned rt os self command first_run resume log_file on_output
                process io result self' io' Hspawn Hrun) as (_ & _ & Htr & _).
    rewrite (lines_read_all _ Hout) in Htr.
    eexists. split; [exact Htr|]. rewrite run_events_calls.
    destruct on_output as [f|], (passthrough self); try reflexivity.
    now rewrite map_map.
  - intros Hq Hlo Hle.
    apply (run_returns rt os self command first_run resume log_file on_output
             process io Hspawn Hq); now apply within_limit_read.
Qed.

(** The two lines of the tests reach the function, the stderr line does not. *)
Lemma C8_callback_per_stdout_line_witness :
  exists events,
    trace (snd (run ascii_runtime
                  (os_of (inr (process_of ["hello"%string; "world"%string]
                                          ["not passed on"%string] 0)))
                  (Executor_init None true) (lit "test") false false None (Some 7%nat)
                  io_empty))
    = trace io_empty ++ events
    /\ filter is_call events = [Call 7%nat (lit "hello"); Call 7%nat (lit "world")].
Proof.
  pose (process := process_of ["hello"%string; "world"%string]
                              ["not passed on"%string] 0).
  destruct (C8_callback_per_stdout_line ascii_runtime (os_of (inr process))
              (Executor_init None true) (lit "test") false false None (Some 7%nat)
              io_empty process eq_refl) as (Hcalls & _ & Hreturns).
  - apply nonempty_chunks_check. vm_compute; reflexivity.
  - destruct Hreturns as (result & Hres).
    + apply quiet_os_of.
    + apply within_limit_check. vm_compute; reflexivity.
    + apply within_limit_check. vm_compute; reflexivity.
    + exact (Hcalls _ _ _ (returned_eq _ _ Hres)).
Defined.

(** C8 as worded fails on a call that raises while it reads: of the three
    lines of stdout the second has 70000 characters before its newline,
    [readline] raises ValueError on it, and the caller's function, given and
    with passthrough on, was called for the first line only. *)
Lemma C8_counterexample_long_line :
  List.length (stdout long_middle_process) = 3%nat
  /\ fst (fst (run ascii_runtime (os_of (inr long_middle_process))
                 (Executor_init None true) (lit "test") false false
                 None (Some 7%nat) io_empty))
     = Raises (Uncaught "ValueError")
  /\ filter is_call
       (trace (snd (run ascii_runtime (os_of (inr long_middle_process))
                      (Executor_init None true) (lit "test") false false
                      None (Some 7%nat) io_empty)))
     = [Call 7%nat (lit "hello")].
Proof.
  pose proof long_line_over as Hover. unfold long_middle_process.
  revert Hover. generalize long_line. intros long Hover.
  vm_compute in Hover.
  split; [reflexivity|].
  split; vm_compute; rewrite Hover; reflexivity.
Qed.

(** ** Spawn failures *)

(** C9: when the executable is not found the call raises ExecutionError with
    the not-found message, when permission is denied it raises ExecutionError
    with the permission-denied message, any other spawn failure is raised as
    it is, and ExecutionError comes from those two failures only. *)
Theorem C9_spawn_failures :
  forall (rt : Py.Runtime) (os : OS) (self : Executor) (command : str)
         (first_run resume : bool) (log_file : option path)
         (on_output : option Callable) (io : IO),
    let spawned :=
      create_subprocess_exec os (_build_args self command first_run resume) in
    let outcome :=
      fst (fst (run rt os self command first_run resume log_file on_output io)) in
    (spawned = inl FileNotFoundError ->
       outcome
       = Raises (ExecutionError
           (lit "Claude Code not found. Please ensure 'claude' is installed and in PATH.")))
    /\ (spawned = inl PermissionError ->
          outcome
          = Raises (ExecutionError (lit "Permission denied when running Claude Code.")))
    /\ (forall class_name,
          spawned = inl (OtherFailure class_name) ->
          outcome = Raises (Uncaught class_name))
    /\ (forall message,
          outcome = Raises (ExecutionError message) ->
          spawned = inl FileNotFoundError \/ spawned = inl PermissionError).
Proof.
  intros rt os self command first_run resume log_file on_output io spawned outcome.
  assert (Hfail : forall failure, spawned = inl failure ->
            outcome = Raises match failure with
                             | FileNotFoundError =>
                                 ExecutionError
                                   (lit "Claude Code not found. Please ensure 'claude' is installed and in PATH.")
                             | PermissionError =>
                                 ExecutionError
                                   (lit "Permission denied when running Claude Code.")
                             | OtherFailure class_name => Uncaught class_name
                             end).
  { intros failure H. unfold outcome.
    now rewrite (run_spawn_failed rt os self command first_run resume
                   log_file on_output failure io H). }
  split; [|split; [|split]].
  - intros H. exact (Hfail _ H).
  - intros H. exact (Hfail _ H).
  - intros class_name H. exact (Hfail _ H).
  - intros message H. destruct spawned as [failure|process] eqn:Hspawn.
    + rewrite (Hfail failure eq_refl) in H.
      destruct failure; auto. discriminate H.
    + exfalso. unfold outcome in H.
      destruct (run rt os self command first_run resume log_file on_output io)
        as [[o self'] io'] eqn:Hrun.
      cbn [fst] in H. subst o.
      destruct (run_raised rt os self command first_run resume log_file on_output
                  process io _ self' io' Hspawn Hrun) as (_ & (c & Hc) & _).
      discriminate Hc.
Qed.

(** A missing executable, and an error the source does not name. *)
Lemma C9_spawn_failures_witness :
  fst (fst (run ascii_runtime (os_of (inl FileNotFoundError))
              (Executor_init None false) (lit "test") false false None None io_empty))
  = Raises (ExecutionError
      (lit "Claude Code not found. Please ensure 'claude' is installed and in PATH."))
  /\ fst (fst (run ascii_runtime (os_of (inl (OtherFailure "OSError")))
                 (Executor_init None false) (lit "test") false false None None io_empty))
     = Raises (Uncaught "OSError").
Proof.
  split.
  - apply (proj1 (C9_spawn_failures ascii_runtime (os_of (inl FileNotFoundError))
                    (Executor_init None false) (lit "test") false false None None
                    io_empty)).
    reflexivity.
  - apply (proj1 (proj2 (proj2
             (C9_spawn_failures ascii_runtime (os_of (inl (OtherFailure "OSError")))
                (Executor_init None false) (lit "test") false false None None
                io_empty)))).
    reflexivity.
Defined.

(** C10: a call that raises ExecutionError leaves the files and the executor
    as they were, and its only event is the spawn: no file is opened or
    written, the caller's function is not called, no stream is read. *)
Theorem C10_failed_spawn_no_effect :
  forall (rt : Py.Runtime) (os : OS) (self : Executor) (command : str)
         (first_run resume : bool) (log_file : option path)
         (on_output : option Callable) (io : IO)
         (message : str) (self' : Executor) (io' : IO),
    run rt os self command first_run resume log_file on_output io
    = ((Raises (ExecutionError message), self'), io') ->
    files io' = files io
    /\ self' = self
    /\ exists events,
         trace io' = trace io ++ events
         /\ events = [Spawn (_build_args self command first_run resume)]
         /\ Forall (fun e => is_file_event e = false /\ is_call e = false
                             /\ is_readline e = false) events.
Proof.
  intros rt os self command first_run resume log_file on_output io
         message self' io' Hrun.
  destruct (create_subprocess_exec os (_build_args self command first_run resume))
    as [failure|process] eqn:Hspawn.
  - rewrite (run_spawn_failed rt os self command first_run resume
               log_file on_output failure io Hspawn) in Hrun.
    injection Hrun as _ <- <-. cbn [files trace].
    split; [reflexivity|]. split; [reflexivity|].
    eexists. split; [reflexivity|]. split; [reflexivity|].
    repeat constructor.
  - destruct (run_raised rt os self command first_run resume log_file on_output
                process io _ self' io' Hspawn Hrun) as (_ & (c & Hc) & _).
    discriminate Hc.
Qed.

(** Permission denied: the log given to the call keeps its old text. *)
Lemma C10_failed_spawn_no_effect_witness :
  files (snd (run ascii_runtime (os_of (inl PermissionError))
                (Executor_init (Some (lit "my-session")) true) (lit "test")
                true false (Some "test.txt"%string) (Some 7%nat)
                (io_with "test.txt"%string (lit "left from an earlier call"))))
  = files (io_with "test.txt"%string (lit "left from an earlier call")).
Proof.
  eapply (C10_failed_spawn_no_effect ascii_runtime (os_of (inl PermissionError))
            (Executor_init (Some (lit "my-session")) true) (lit "test")
            true false (Some "test.txt"%string) (Some 7%nat)
            (io_with "test.txt"%string (lit "left from an earlier call"))).
  reflexivity.
Defined.

(** * Further properties of the executor *)

(** ** More on strings *)

Lemma split_pieces (sep : char) (s : str) :
  exists piece pieces, Py.split sep s = piece :: pieces.
Proof.
  induction s as [|c s (piece & pieces & IH)]; cbn; [eauto|].
  destruct (c =? sep); [eauto|]. rewrite IH. eauto.
Qed.

Lemma split_app (sep : char) (a b : str) :
  Py.split sep (a ++ sep :: b) = Py.split sep a ++ Py.split sep b.
Proof.
  induction a as [|c a IH]; cbn.
  - now rewrite N.eqb_refl.
  - destruct (c =? sep); [now rewrite IH|].
    rewrite IH. now destruct (split_pieces sep a) as (piece & pieces & ->).
Qed.

Lemma split_piece_facts (sep : char) (s : str) :
  Forall (fun piece => ~ In sep piece
                       /\ (List.length piece <= List.length s)%nat)
         (Py.split sep s).
Proof.
  induction s as [|c s IH]; cbn.
  - constructor; [|constructor]. cbn. split; [tauto | lia].
  - assert (Hweak : forall pieces,
              Forall (fun piece => ~ In sep piece
                                   /\ (List.length piece <= List.length s)%nat) pieces ->
              Forall (fun piece => ~ In sep piece
                                   /\ (List.length piece <= S (List.length s))%nat) pieces).
    { intros pieces H. eapply Forall_impl; [|exact H].
      cbn. intros piece [H1 H2]. split; [assumption | lia]. }
    destruct (N.eqb_spec c sep) as [->|Hc].
    + constructor; [cbn; split; [tauto | lia] | now apply Hweak].
    + destruct (split_pieces sep s) as (piece & pieces & E). rewrite E in *.
      inversion IH as [|? ? [H1 H2] Hrest]; subst. constructor.
      * cbn. split; [intros [->|H]; tauto | lia].
      * now apply Hweak.
Qed.

(** What [lstrip] returns is the end of the string, after characters of
    the class only. *)
Lemma lstrip_by_suffix (p : char -> bool) (s : str) :
  exists pre, s = pre ++ Py.lstrip_by p s /\ forallb p pre = true.
Proof.
  induction s as [|c s (pre & IH & Hpre)]; cbn.
  - now exists [].
  - destruct (p c) eqn:Hc.
    + exists (c :: pre). cbn. rewrite Hc, Hpre. split; [now f_equal | reflexivity].
    + now exists [].
Qed.

Lemma lstrip_by_starts (p : char -> bool) (s : str) :
  starts_outside p (Py.lstrip_by p s).
Proof.
  induction s as [|c s IH]; cbn; [exact I|].
  destruct (p c) eqn:Hc; [exact IH | exact Hc].
Qed.

Lemma starts_outside_app (p : char -> bool) (a b : str) :
  a <> [] -> starts_outside p (a ++ b) -> starts_outside p a.
Proof. destruct a; [contradiction | trivial]. Qed.

Lemma rstrip_by_ends (p : char -> bool) (s : str) :
  starts_outside p (rev (Py.rstrip_by p s)).
Proof. unfold Py.rstrip_by. rewrite rev_involutive. apply lstrip_by_starts. Qed.

Lemma strip_by_ends (p : char -> bool) (s : str) :
  starts_outside p (Py.strip_by p s) /\ starts_outside p (rev (Py.strip_by p s)).
Proof.
  unfold Py.strip_by. split; [apply lstrip_by_starts|].
  pose proof (rstrip_by_ends p s) as Hr.
  destruct (lstrip_by_suffix p (Py.rstrip_by p s)) as (pre & Heq & _).
  destruct (Py.lstrip_by p (Py.rstrip_by p s)) as [|c l] eqn:El; [exact I|].
  rewrite Heq, rev_app_distr in Hr.
  apply starts_outside_app in Hr; [exact Hr|].
  intros H. apply (f_equal (@List.length char)) in H.
  rewrite length_rev in H. discriminate H.
Qed.

(** Trimming what is trimmed changes nothing. *)
Lemma strip_by_idempotent (p : char -> bool) (s : str) :
  Py.strip_by p (Py.strip_by p s) = Py.strip_by p s.
Proof.
  destruct (strip_by_ends p s) as [Hs He].
  set (l := Py.strip_by p s) in *. unfold Py.strip_by at 1, Py.rstrip_by.
  rewrite (lstrip_by_id p (rev l)), rev_involutive.
  - apply lstrip_by_id. exact Hs.
  - exact He.
Qed.

Lemma lstrip_by_in (p : char -> bool) (s : str) (c : char) :
  In c (Py.lstrip_by p s) -> In c s.
Proof.
  destruct (lstrip_by_suffix p s) as (pre & Heq & _). intros H.
  rewrite Heq. apply in_or_app. now right.
Qed.

Lemma strip_by_in (p : char -> bool) (s : str) (c : char) :
  In c (Py.strip_by p s) -> In c s.
Proof.
  unfold Py.strip_by, Py.rstrip_by. intros H.
  apply lstrip_by_in, in_rev, lstrip_by_in, in_rev in H. exact H.
Qed.

Lemma lstrip_by_length (p : char -> bool) (s : str) :
  (List.length (Py.lstrip_by p s) <= List.length s)%nat.
Proof.
  destruct (lstrip_by_suffix p s) as (pre & Heq & _).
  rewrite Heq at 2. rewrite length_app. lia.
Qed.

Lemma strip_by_length (p : char -> bool) (s : str) :
  (List.length (Py.strip_by p s) <= List.length s)%nat.
Proof.
  unfold Py.strip_by, Py.rstrip_by.
  pose proof (lstrip_by_length p (rev (Py.lstrip_by p (rev s)))) as H1.
  pose proof (lstrip_by_length p (rev s)) as H2.
  rewrite length_rev in H1, H2. lia.
Qed.

(** What [rstrip("\n")] returns does not end in a newline. *)
Lemma rstrip_newline_ends (s pre : str) :
  Py.rstrip_chars [NL] s <> pre ++ [NL].
Proof.
  unfold Py.rstrip_chars. intros H.
  pose proof (rstrip_by_ends (fun c => existsb (N.eqb c) [NL]) s) as He.
  rewrite H, rev_app_distr in He. cbn in He. discriminate He.
Qed.

(** ** More on the extraction *)

Lemma first_session_line_app (rt : Py.Runtime) (lines more : list str) :
  first_session_line rt (lines ++ more)
  = match first_session_line rt lines with
    | Some s => Some s
    | None => first_session_line rt more
    end.
Proof.
  induction lines as [|line lines IH]; [reflexivity|].
  cbn [app]. rewrite !(first_session_line_eq rt (line :: _)).
  now destruct (line_test rt (Py.strip rt line)).
Qed.

(** An identifier the extraction returns is trimmed, holds no newline, and
    has the shape the loop tests. *)
Lemma extract_found_facts (rt : Py.Runtime) (output sid : str) :
  _extract_session_id rt output = Some sid ->
  session_id_shape rt sid /\ Py.strip rt sid = sid /\ ~ In NL sid
  /\ (List.length sid <= List.length output)%nat.
Proof.
  intros H. apply first_session_line_found in H.
  destruct H as (before & line & after & Hsplit & -> & Hshape & _).
  pose proof (split_piece_facts NL output) as Hpieces.
  rewrite Hsplit in Hpieces. apply Forall_app in Hpieces.
  destruct Hpieces as [_ Hpieces]. inversion Hpieces as [|? ? [Hnl Hlen] _]; subst.
  split; [assumption|]. split; [apply strip_by_idempotent|]. split.
  - intros Hin. apply Hnl. revert Hin. apply strip_by_in.
  - pose proof (strip_by_length (Py.c_isspace rt) line). unfold Py.strip. lia.
Qed.

(** X1: what the extraction returns is a fixed point of it: run on the
    identifier alone, it returns that identifier again. *)
Theorem X1_extract_idempotent :
  forall (rt : Py.Runtime) (output sid : str),
    _extract_session_id rt output = Some sid ->
    _extract_session_id rt sid = Some sid.
Proof.
  intros rt output sid H.
  destruct (extract_found_facts rt output sid H) as (Hshape & Hstrip & Hnl & _).
  now apply extract_single_line.
Qed.

Lemma X1_extract_idempotent_witness :
  _extract_session_id ascii_runtime uuid_line = Some uuid_line.
Proof.
  apply (X1_extract_idempotent ascii_runtime chatty_output uuid_line).
  vm_compute; reflexivity.
Defined.

(** X2: over two texts joined by a newline the extraction returns the
    identifier of the first text if it has one, and that of the second text
    otherwise: what comes after a found identifier never changes it. *)
Theorem X2_extract_joined_output :
  forall (rt : Py.Runtime) (first_part second_part : str),
    _extract_session_id rt (first_part ++ NL :: second_part)
    = match _extract_session_id rt first_part with
      | Some sid => Some sid
      | None => _extract_session_id rt second_part
      end.
Proof.
  intros rt first_part second_part. unfold _extract_session_id.
  now rewrite split_app, first_session_line_app.
Qed.

(** X3: an output of at most 10 characters, the empty one among them,
    yields no identifier. *)
Theorem X3_extract_short_output :
  forall (rt : Py.Runtime) (output : str),
    (List.length output <= 10)%nat ->
    _extract_session_id rt output = None.
Proof.
  intros rt output Hlen.
  destruct (_extract_session_id rt output) as [sid|] eqn:H; [|reflexivity].
  destruct (extract_found_facts rt output sid H) as ([Hsid _] & _ & _ & Hle). lia.
Qed.

Lemma X3_extract_short_output_witness :
  _extract_session_id ascii_runtime [] = None
  /\ _extract_session_id ascii_runtime (lit "abcdefghij") = None.
Proof.
  split; apply X3_extract_short_output; vm_compute; lia.
Defined.

(** ** More on a call of [run] *)

Lemma or_zero_code (code : option Z) :
  or_zero code = match code with Some n => n | None => 0%Z end.
Proof.
  destruct code as [n|]; [|reflexivity]. cbn.
  destruct (Z.eqb_spec n 0) as [->|_]; reflexivity.
Qed.

(** X4: when the process was spawned, the exit code of a result the call
    returns is the code the process reports, and 0 when it reports none; and
    the call does return when nothing raises after the spawn. *)
Theorem X4_exit_code_passthrough :
  forall (rt : Py.Runtime) (os : OS) (self : Executor) (command : str)
         (first_run resume : bool) (log_file : option path)
         (on_output : option Callable) (io : IO) (process : Process),
    create_subprocess_exec os (_build_args self command first_run resume)
    = inr process ->
    (forall result self' io',
        run rt os self command first_run resume log_file on_output io
        = ((Returns result, self'), io') ->
        exit_code result
        = match returncode process with Some code => code | None => 0%Z end)
    /\ (quiet os ->
        within_limit (stdout process) -> within_limit (stderr process) ->
        exists result,
          fst (fst (run rt os self command first_run resume log_file on_output io))
          = Returns result).
Proof.
  intros rt os self command first_run resume log_file on_output io process Hspawn.
  split.
  - intros result self' io' Hrun.
    destruct (run_returned rt os self command first_run resume log_file on_output
                process io result self' io' Hspawn Hrun) as (-> & _).
    apply or_zero_code.
  - intros Hq Hlo Hle.
    apply (run_returns rt os self command first_run resume log_file on_output
             process io Hspawn Hq); now apply within_limit_read.
Qed.

(** The exit code 1 of the tests. *)
Lemma X4_exit_code_passthrough_witness :
  exists result,
    fst (fst (run ascii_runtime
                (os_of (inr (process_of [] ["error"%string] 1)))
                (Executor_init None false) (lit "failing command")
                false false None None io_empty))
    = Returns result
    /\ exit_code result = 1%Z.
Proof.
  pose (process := process_of [] ["error"%string] 1).
  destruct (X4_exit_code_passthrough ascii_runtime (os_of (inr process))
              (Executor_init None false) (lit "failing command")
              false false None None io_empty process eq_refl) as [Hcode Hreturns].
  destruct Hreturns as (result & Hres).
  - apply quiet_os_of.
  - apply within_limit_check. vm_compute; reflexivity.
  - apply within_limit_check. vm_compute; reflexivity.
  - exists result. split; [exact Hres|].
    exact (Hcode _ _ _ (returned_eq _ _ Hres)).
Defined.

(** X5: the identifier a result reports is the one the call cached: when
    the result has one, first_run was set, a session name is configured, the
    extraction found it in the result's output, and it is the cached
    identifier after the call; when the result has none, the cache is as
    before. *)
Theorem X5_result_reports_cached_session :
  forall (rt : Py.Runtime) (os : OS) (self : Executor) (command : str)
         (first_run resume : bool) (log_file : option path)
         (on_output : option Callable) (io : IO)
         (result : ExecutionResult) (self' : Executor) (io' : IO),
    run rt os self command first_run resume log_file on_output io
    = ((Returns result, self'), io') ->
    match session_id result with
    | Some sid =>
        first_run = true /\ truthy (session_name self) = true
        /\ _extract_session_id rt (output result) = Some sid
        /\ _session_id self' = Some sid
    | None => _session_id self' = _session_id self
    end.
Proof.
  intros rt os self command first_run resume log_file on_output io
         result self' io' Hrun.
  destruct (run_self_cases _ _ _ _ _ _ _ _ _ _ _ _ Hrun)
    as [[-> Hnone]|(result' & sid & [= <-] & Hsid & Hfr & Hname & Hex & ->)].
  - now rewrite Hnone.
  - rewrite Hsid. auto.
Qed.

Lemma X5_result_reports_cached_session_witness :
  _session_id
    (snd (fst (run ascii_runtime
                 (os_of (inr (process_of ["no identifier here"%string] [] 0)))
                 {| session_name := Some (lit "my-session"); passthrough := false;
                    _session_id := Some (lit "abc123") |}
                 (lit "test") true false None None io_empty)))
  = Some (lit "abc123").
Proof.
  set (r := run _ _ _ _ _ _ _ _ _).
  assert (Hrun : r = ((Returns {| output := lit (with_nl "no identifier here");
                                   exit_code := 0;
                                   session_id := None;
                                   duration_seconds := 1%float;
                                   error_output := [] |},
                       snd (fst r)), snd r)) by (vm_compute; reflexivity).
  unfold r in Hrun at 1.
  exact (X5_result_reports_cached_session _ _ _ _ _ _ _ _ _ _ _ _ Hrun).
Defined.

(** X6: a call never changes the session name or the passthrough flag of
    the executor. *)
Theorem X6_run_keeps_configuration :
  forall (rt : Py.Runtime) (os : OS) (self : Executor) (command : str)
         (first_run resume : bool) (log_file : option path)
         (on_output : option Callable) (io : IO),
    let self' :=
      snd (fst (run rt os self command first_run resume log_file on_output io)) in
    session_name self' = session_name self
    /\ passthrough self' = passthrough self.
Proof.
  intros rt os self command first_run resume log_file on_output io. cbn zeta.
  destruct (run rt os self command first_run resume log_file on_output io)
    as [[outcome self1] io1] eqn:Hrun.
  cbn [fst snd].
  destruct (run_self_cases _ _ _ _ _ _ _ _ _ _ _ _ Hrun)
    as [[-> _]|(_ & sid & _ & _ & _ & _ & _ & ->)]; auto.
Qed.

(** X7: a first run whose result reports an identifier is followed by
    resume runs that select it: after the call, resume without first_run
    builds claude, --print, the command, --session and that identifier, for
    every command. *)
Theorem X7_first_run_then_resume :
  forall (rt : Py.Runtime) (os : OS) (self : Executor) (command : str)
         (first_run resume : bool) (log_file : option path)
         (on_output : option Callable) (io : IO)
         (result : ExecutionResult) (self' : Executor) (io' : IO) (sid : str),
    run rt os self command first_run resume log_file on_output io
    = ((Returns result, self'), io') ->
    session_id result = Some sid ->
    forall next_command,
      _build_args self' next_command false true
      = [lit "claude"; lit "--print"; next_command; lit "--session"; sid].
Proof.
  intros rt os self command first_run resume log_file on_output io
         result self' io' sid Hrun Hsid next_command.
  destruct (run_self_cases _ _ _ _ _ _ _ _ _ _ _ _ Hrun)
    as [[_ Hnone]|(result' & sid' & [= <-] & Hsid' & _ & Hname & Hex & ->)].
  - rewrite Hnone in Hsid. discriminate Hsid.
  - rewrite Hsid in Hsid'. injection Hsid' as <-.
    apply build_args_named_resume; trivial.
    pose proof (extract_nonempty _ _ _ Hex) as Hne.
    intros ->. discriminate Hne.
Qed.

Lemma X7_first_run_then_resume_witness :
  _build_args
    (snd (fst (run ascii_runtime (os_of (inr (process_of
                    ["550e8400-e29b-41d4-a716-446655440000"%string] [] 0)))
                 (Executor_init (Some (lit "my-session")) false)
                 (lit "test") true false None None io_empty)))
    (lit "and then") false true
  = [lit "claude"; lit "--print"; lit "and then"; lit "--session"; uuid_line].
Proof.
  set (r := run _ _ _ _ _ _ _ _ _).
  assert (Hrun : r = ((Returns {| output := lit (with_nl "550e8400-e29b-41d4-a716-446655440000");
                                   exit_code := 0;
                                   session_id := Some uuid_line;
                                   duration_seconds := 1%float;
                                   error_output := [] |},
                       snd (fst r)), snd r)) by (vm_compute; reflexivity).
  unfold r in Hrun at 1.
  exact (X7_first_run_then_resume _ _ _ _ _ _ _ _ _ _ _ _ uuid_line Hrun eq_refl
           (lit "and then")).
Defined.

(** ** The executors a caller can hold *)

(** X8: on every executor that started fresh and went through calls of
    [run] only, a cached identifier has the shape the extraction tests (so
    it is not empty), a session name is configured, and resume without
    first_run selects exactly that identifier. *)
Theorem X8_reachable_cache_is_usable :
  forall (rt : Py.Runtime) (self : Executor) (sid : str),
    reachable rt self ->
    _session_id self = Some sid ->
    session_id_shape rt sid
    /\ truthy (session_name self) = true
    /\ forall command,
         _build_args self command false true
         = [lit "claude"; lit "--print"; command; lit "--session"; sid].
Proof.
  intros rt self sid Hreach. revert sid.
  assert (Hinv : forall sid, _session_id self = Some sid ->
                   session_id_shape rt sid /\ truthy (session_name self) = true).
  { induction Hreach as [name pt | self os command first_run resume log_file
                                     on_output io Hreach IH]; intros sid Hsid.
    - discriminate Hsid.
    - destruct (run rt os self command first_run resume log_file on_output io)
        as [[outcome self1] io1] eqn:Hrun.
      cbn [fst snd] in Hsid |- *.
      destruct (run_self_cases _ _ _ _ _ _ _ _ _ _ _ _ Hrun)
        as [[-> _]|(result & sid' & _ & _ & _ & Hname & Hex & ->)].
      + now apply IH.
      + cbn in Hsid. injection Hsid as ->. split; [|exact Hname].
        now destruct (extract_found_facts _ _ _ Hex). }
  intros sid Hsid. destruct (Hinv sid Hsid) as [Hshape Hname].
  split; [assumption|]. split; [assumption|]. intros command.
  apply build_args_named_resume; trivial.
  intros ->. destruct Hshape as [Hlen _]. cbn in Hlen. lia.
Qed.

(** Two calls on a fresh executor: the first finds a UUID, the second finds
    nothing and leaves it cached for the resume. *)
Lemma X8_reachable_cache_is_usable_witness :
  _build_args twice_called (lit "and then") false true
  = [lit "claude"; lit "--print"; lit "and then"; lit "--session"; uuid_line].
Proof.
  assert (Hreach : reachable ascii_runtime twice_called)
    by (apply reachable_run, reachable_run, reachable_init).
  destruct (X8_reachable_cache_is_usable ascii_runtime twice_called uuid_line Hreach)
    as (_ & _ & Hargs); [vm_compute; reflexivity|].
  apply Hargs.
Defined.

(** ** More on the events of a call *)

Lemma readline_events_stdout (self : Executor) (on_output : option Callable)
    (log : option path) (outs : list str) :
  filter is_readline (flat_map (stdout_line_events self on_output log) outs)
  = repeat (Readline Stdout) (List.length outs).
Proof.
  induction outs as [|line outs IH]; [reflexivity|].
  cbn [flat_map]. rewrite filter_app, IH. unfold stdout_line_events.
  destruct (if passthrough self then on_output else None), log; reflexivity.
Qed.

Lemma readline_events_stderr (log : option path) (errs : list str) :
  filter is_readline (flat_map (stderr_line_events log) errs)
  = repeat (Readline Stderr) (List.length errs).
Proof.
  induction errs as [|line errs IH]; [reflexivity|].
  cbn [flat_map]. rewrite filter_app, IH. now destruct log.
Qed.

Lemma repeat_snoc {A} (a : A) (n : nat) : repeat a n ++ [a] = repeat a (n + 1).
Proof. now rewrite repeat_app. Qed.

Lemma readline_stdout_phase (self : Executor) (on_output : option Callable)
    (log : option path) (events : list Event) :
  Forall (stdout_phase self on_output log) events ->
  exists k, filter is_readline events = repeat (Readline Stdout) k.
Proof.
  induction 1 as [|e events He _ (k & IH)]; [now exists 0%nat|].
  cbn [filter]. rewrite IH.
  destruct He as [->|[(g & line & _ & ->)|(p & s & _ & [->| ->])]]; cbn.
  - now exists (S k).
  - now exists k.
  - now exists k.
  - now exists k.
Qed.

Lemma readline_stderr_phase (log : option path) (events : list Event) :
  Forall (stderr_phase log) events ->
  exists m, filter is_readline events = repeat (Readline Stderr) m.
Proof.
  induction 1 as [|e events He _ (m & IH)]; [now exists 0%nat|].
  cbn [filter]. rewrite IH.
  destruct He as [->|(p & s & _ & [->| ->])]; cbn.
  - now exists (S m).
  - now exists m.
  - now exists m.
Qed.

(** X9: when the process was spawned, on every path of the call, those
    that raise among them, every read of stdout comes before every read of
    stderr; and in a call that returns, each stream was read once per chunk
    up to its end and once more for the end. *)
Theorem X9_stdout_drained_before_stderr :
  forall (rt : Py.Runtime) (os : OS) (self : Executor) (command : str)
         (first_run resume : bool) (log_file : option path)
         (on_output : option Callable) (io : IO) (process : Process),
    create_subprocess_exec os (_build_args self command first_run resume)
    = inr process ->
    (exists events k m,
        trace (snd (run rt os self command first_run resume log_file on_output io))
        = trace io ++ events
        /\ filter is_readline events
           = repeat (Readline Stdout) k ++ repeat (Readline Stderr) m)
    /\ (forall result self' io',
          run rt os self command first_run resume log_file on_output io
          = ((Returns result, self'), io') ->
          exists events,
            trace io' = trace io ++ events
            /\ filter is_readline events
               = repeat (Readline Stdout) (List.length (lines_read (stdout process)) + 1)
                 ++ repeat (Readline Stderr)
                      (List.length (lines_read (stderr process)) + 1)).
Proof.
  intros rt os self command first_run resume log_file on_output io process Hspawn.
  split.
  - pose proof (run_spawned_steps rt os self command first_run resume
                  log_file on_output process io Hspawn) as Hsteps.
    cbn zeta in Hsteps.
    assert (Hw : forall w : list Event, w = [] \/ w = [Wait] -> filter is_readline w = [])
      by (intros w [->| ->]; reflexivity).
    destruct log_file as [p|].
    + destruct (raises os _ (Open p)) as [c|].
      * destruct Hsteps as (_ & _ & Htr). eexists _, 0%nat, 0%nat.
        rewrite Htr, <- app_assoc. split; reflexivity.
      * destruct Hsteps as (so & se & w & Htr & Hso & Hse & Hwait).
        destruct (readline_stdout_phase _ _ _ _ Hso) as (k & Hk).
        destruct (readline_stderr_phase _ _ Hse) as (m & Hm).
        eexists _, k, m. rewrite Htr, <- app_assoc. split; [reflexivity|].
        cbn [app filter is_readline].
        rewrite !filter_app, Hk, Hm, (Hw w Hwait). cbn [filter is_readline].
        now rewrite !app_nil_r.
    + destruct Hsteps as (_ & so & se & w & Htr & Hso & Hse & Hwait).
      destruct (readline_stdout_phase _ _ _ _ Hso) as (k & Hk).
      destruct (readline_stderr_phase _ _ Hse) as (m & Hm).
      eexists _, k, m. rewrite Htr, <- app_assoc. split; [reflexivity|].
      cbn [app filter is_readline].
      rewrite !filter_app, Hk, Hm, (Hw w Hwait). now rewrite !app_nil_r.
  - intros result self' io' Hrun.
    destruct (run_returned rt os self command first_run resume log_file on_output
                process io result self' io' Hspawn Hrun) as (_ & _ & Htr & _).
    eexists. split; [exact Htr|].
    unfold run_events. cbn [filter is_readline].
    rewrite filter_app.
    assert (Hopen : filter is_readline
                      match log_file with Some p => [Open p] | None => [] end = [])
      by now destruct log_file.
    rewrite Hopen, filter_app, readline_events_stdout. cbn [filter is_readline app].
    rewrite filter_app, readline_events_stderr. cbn [filter is_readline app].
    assert (Hclose : filter is_readline
                       match log_file with Some p => [Close p] | None => [] end = [])
      by now destruct log_file.
    rewrite Hclose, !length_map, <- !repeat_snoc, <- !app_assoc. reflexivity.
Qed.

Lemma X9_stdout_drained_before_stderr_witness :
  exists events,
    trace (snd (run ascii_runtime
                  (os_of (inr (process_of ["hello"%string; "world"%string]
                                          ["oops"%string] 0)))
                  (Executor_init None true) (lit "test") false false None (Some 7%nat)
                  io_empty))
    = trace io_empty ++ events
    /\ filter is_readline events
       = [Readline Stdout; Readline Stdout; Readline Stdout;
          Readline Stderr; Readline Stderr].
Proof.
  pose (process := process_of ["hello"%string; "world"%string] ["oops"%string] 0).
  destruct (X9_stdout_drained_before_stderr ascii_runtime (os_of (inr process))
              (Executor_init None true) (lit "test") false false None (Some 7%nat)
              io_empty process eq_refl) as [_ Hreads].
  assert (Hrun : fst (fst (run ascii_runtime (os_of (inr process))
                             (Executor_init None true) (lit "test") false false
                             None (Some 7%nat) io_empty))
                 = Returns {| output := lit (with_nl "hello" ++ with_nl "world");
                              exit_code := 0;
                              session_id := None;
                              duration_seconds := 1%float;
                              error_output := lit (with_nl "oops") |})
    by (vm_compute; reflexivity).
  exact (Hreads _ _ _ (returned_eq _ _ Hrun)).
Defined.

Lemma open_close_stdout_phase (self : Executor) (on_output : option Callable)
    (log : option path) (events : list Event) :
  Forall (stdout_phase self on_output log) events ->
  filter is_open_or_close events = [].
Proof.
  induction 1 as [|e events He _ IH]; [reflexivity|].
  cbn [filter]. rewrite IH.
  now destruct He as [->|[(g & line & _ & ->)|(p & s & _ & [->| ->])]].
Qed.

Lemma open_close_stderr_phase (log : option path) (events : list Event) :
  Forall (stderr_phase log) events ->
  filter is_open_or_close events = [].
Proof.
  induction 1 as [|e events He _ IH]; [reflexivity|].
  cbn [filter]. rewrite IH.
  now destruct He as [->|(p & s & _ & [->| ->])].
Qed.

(** X10: with a log file given and the process spawned, on every path of
    the call, those that raise among them: if the open does not raise, the
    file is opened once, right after the spawn and before any read, and
    closed once, as the last thing the call does; if the open raises, that
    is what the call raises, the files are as before, and nothing is read
    or closed. *)
Theorem X10_log_opened_and_closed_once :
  forall (rt : Py.Runtime) (os : OS) (self : Executor) (command : str)
         (first_run resume : bool) (p : path)
         (on_output : option Callable) (io : IO) (process : Process),
    create_subprocess_exec os (_build_args self command first_run resume)
    = inr process ->
    let args := _build_args self command first_run resume in
    let r := run rt os self command first_run resume (Some p) on_output io in
    (raises os (trace io ++ [Spawn args]) (Open p) = None ->
       exists between,
         trace (snd r) = trace io ++ Spawn args :: Open p :: between ++ [Close p]
         /\ filter is_open_or_close between = [])
    /\ (forall c,
          raises os (trace io ++ [Spawn args]) (Open p) = Some c ->
          fst (fst r) = Raises (Uncaught c)
          /\ files (snd r) = files io
          /\ trace (snd r) = trace io ++ [Spawn args; Open p]).
Proof.
  intros rt os self command first_run resume p on_output io process Hspawn.
  cbn zeta.
  pose proof (run_spawned_steps rt os self command first_run resume
                (Some p) on_output process io Hspawn) as Hsteps.
  cbv beta iota zeta in Hsteps. split.
  - intros Hnone. rewrite Hnone in Hsteps.
    destruct Hsteps as (so & se & w & Htr & Hso & Hse & Hwait).
    exists (so ++ se ++ w). split; [now rewrite Htr, <- app_assoc|].
    rewrite !filter_app, (open_close_stdout_phase _ _ _ _ Hso),
      (open_close_stderr_phase _ _ Hse).
    now destruct Hwait as [->| ->].
  - intros c Hc. rewrite Hc in Hsteps. destruct Hsteps as (Hout & Hfs & Htr).
    split; [assumption|]. split; [assumption|]. now rewrite Htr, <- app_assoc.
Qed.

Lemma X10_log_opened_and_closed_once_witness :
  exists between,
    trace (snd (run ascii_runtime
                  (os_of (inr (process_of ["logged output"%string] ["warning"%string] 0)))
                  (Executor_init None false) (lit "test") false false
                  (Some "test.txt"%string) None io_empty))
    = trace io_empty
      ++ Spawn [lit "claude"; lit "--print"; lit "test"] :: Open "test.txt"%string
         :: between ++ [Close "test.txt"%string]
    /\ filter is_open_or_close between = [].
Proof.
  apply (X10_log_opened_and_closed_once ascii_runtime
           (os_of (inr (process_of ["logged output"%string] ["warning"%string] 0)))
           (Executor_init None false) (lit "test") false false
           "test.txt"%string None io_empty
           (process_of ["logged output"%string] ["warning"%string] 0)).
  - reflexivity.
  - reflexivity.
Defined.

(** The events of a call are of the kinds a call can make, on every path. *)
Lemma run_events_kind (rt : Py.Runtime) (os : OS) (self : Executor) (command : str)
    (first_run resume : bool) (log_file : option path)
    (on_output : option Callable) (io : IO) :
  exists events,
    trace (snd (run rt os self command first_run resume log_file on_output io))
    = trace io ++ events
    /\ Forall (run_kind self on_output log_file) events.
Proof.
  assert (Hspawn_kind : forall args, run_kind self on_output log_file (Spawn args))
    by (intros args; left; eauto).
  assert (Hso : forall so, Forall (stdout_phase self on_output log_file) so ->
                           Forall (run_kind self on_output log_file) so).
  { intros so H. eapply Forall_impl; [|exact H]. intros e He. right; now left. }
  assert (Hse : forall se, Forall (stderr_phase log_file) se ->
                           Forall (run_kind self on_output log_file) se).
  { intros se H. eapply Forall_impl; [|exact H]. intros e He. right; right; now left. }
  assert (Hw : forall w : list Event, w = [] \/ w = [Wait] ->
                           Forall (run_kind self on_output log_file) w).
  { intros w [->| ->]; [constructor|]. constructor; [|constructor].
    right; right; right; now left. }
  destruct (create_subprocess_exec os (_build_args self command first_run resume))
    as [failure|process] eqn:Hspawn.
  - rewrite (run_spawn_failed rt os self command first_run resume
               log_file on_output failure io Hspawn).
    eexists. split; [reflexivity|]. constructor; [apply Hspawn_kind|constructor].
  - pose proof (run_spawned_steps rt os self command first_run resume
                  log_file on_output process io Hspawn) as Hsteps.
    cbn zeta in Hsteps. destruct log_file as [p|].
    + assert (Hopen : run_kind self on_output (Some p) (Open p))
        by (right; right; right; right; eauto).
      assert (Hclose : run_kind self on_output (Some p) (Close p))
        by (right; right; right; right; eauto).
      destruct (raises os _ (Open p)) as [c|].
      * destruct Hsteps as (_ & _ & Htr). eexists.
        rewrite Htr, <- app_assoc. split; [reflexivity|].
        cbn [app]. constructor; [apply Hspawn_kind|]. constructor; [exact Hopen|constructor].
      * destruct Hsteps as (so & se & w & Htr & Hso' & Hse' & Hwait).
        eexists. rewrite Htr, <- app_assoc. split; [reflexivity|].
        cbn [app]. constructor; [apply Hspawn_kind|]. constructor; [exact Hopen|].
        rewrite !Forall_app. repeat split; auto.
    + destruct Hsteps as (_ & so & se & w & Htr & Hso' & Hse' & Hwait).
      eexists. rewrite Htr, <- app_assoc. split; [reflexivity|].
      cbn [app]. constructor; [apply Hspawn_kind|].
      rewrite !Forall_app. repeat split; auto.
Qed.

(** X11: a call without a log file touches no file: every file is after the
    call as before, and no event of the call opens, writes, flushes or closes
    one, whether the spawn succeeds or not. *)
Theorem X11_no_log_no_file_touched :
  forall (rt : Py.Runtime) (os : OS) (self : Executor) (command : str)
         (first_run resume : bool) (on_output : option Callable) (io : IO),
    let io' := snd (run rt os self command first_run resume None on_output io) in
    (forall q, files io' q = files io q)
    /\ exists events,
         trace io' = trace io ++ events /\ filter is_file_event events = [].
Proof.
  intros rt os self command first_run resume on_output io. cbn zeta. split.
  - intros q.
    destruct (create_subprocess_exec os (_build_args self command first_run resume))
      as [failure|process] eqn:Hspawn.
    + now rewrite (run_spawn_failed rt os self command first_run resume
                     None on_output failure io Hspawn).
    + pose proof (run_spawned_steps rt os self command first_run resume
                    None on_output process io Hspawn) as Hsteps.
      cbv beta iota zeta in Hsteps. destruct Hsteps as [Hfs _]. now rewrite Hfs.
  - destruct (run_events_kind rt os self command first_run resume None on_output io)
      as (events & Htr & Hkind).
    exists events. split; [exact Htr|].
    clear Htr. induction Hkind as [|e events He _ IH]; [reflexivity|].
    cbn [filter]. rewrite IH.
    destruct He as [(args & ->)|[He|[He|[->|(p & Hp & _)]]]]; try reflexivity.
    + destruct He as [->|[(g & line & _ & ->)|(p & s & Hp & _)]];
        try reflexivity. discriminate Hp.
    + destruct He as [->|(p & s & Hp & _)]; [reflexivity | discriminate Hp].
    + discriminate Hp.
Qed.

(** X12: no call of the caller's function, in any call of [run], gets a
    text that ends in a newline. *)
Theorem X12_callback_text_has_no_trailing_newline :
  forall (rt : Py.Runtime) (os : OS) (self : Executor) (command : str)
         (first_run resume : bool) (log_file : option path)
         (on_output : option Callable) (io : IO),
    exists events,
      trace (snd (run rt os self command first_run resume log_file on_output io))
      = trace io ++ events
      /\ forall f arg, In (Call f arg) events -> forall pre, arg <> pre ++ [NL].
Proof.
  intros rt os self command first_run resume log_file on_output io.
  destruct (run_events_kind rt os self command first_run resume log_file
              on_output io) as (events & Htr & Hkind).
  exists events. split; [exact Htr|].
  intros f arg Hin pre. rewrite Forall_forall in Hkind.
  destruct (Hkind _ Hin) as [(args & H)|[He|[He|[H|(p & _ & [H|H])]]]];
    try discriminate H.
  - destruct He as [H|[(g & line & _ & [= _ ->])|(p & s & _ & [H|H])]];
      try discriminate H.
    apply rstrip_newline_ends.
  - destruct He as [H|(p & s & _ & [H|H])]; discriminate H.
Qed.



Lemma lines_read_until (read unread : list bytes) :
  Forall (fun chunk => chunk <> []) read ->
  lines_read (read ++ [] :: unread) = read.
Proof.
  induction 1 as [|chunk read Hc _ IH]; [reflexivity|].
  cbn. destruct chunk; [contradiction|]. cbn. now rewrite IH.
Qed.

(** X14: an empty chunk ends the reading of a stream: the output of a
    result the call returns is the concatenation of the decoded chunks before
    the first empty chunk of stdout, the error output likewise for stderr,
    and what comes after is left out; and the call does return when no
    operation of the world raises and none of the chunks before the empty
    ones is over the readers' limit, whatever comes after them. *)
Theorem X14_empty_chunk_ends_stream :
  forall (rt : Py.Runtime) (os : OS) (self : Executor) (command : str)
         (first_run resume : bool) (log_file : option path)
         (on_output : option Callable) (io : IO) (process : Process)
         (out out_unread err err_unread : list bytes),
    create_subprocess_exec os (_build_args self command first_run resume)
    = inr process ->
    stdout process = out ++ [] :: out_unread ->
    stderr process = err ++ [] :: err_unread ->
    Forall (fun chunk => chunk <> []) out ->
    Forall (fun chunk => chunk <> []) err ->
    (forall result self' io',
        run rt os self command first_run resume log_file on_output io
        = ((Returns result, self'), io') ->
        output result = List.concat (map (Py.decode rt) out)
        /\ error_output result = List.concat (map (Py.decode rt) err))
    /\ (quiet os -> within_limit out -> within_limit err ->
        exists result,
          fst (fst (run rt os self command first_run resume log_file on_output io))
          = Returns result).
Proof.
  intros rt os self command first_run resume log_file on_output io process
         out out_unread err err_unread Hspawn Hout Herr Hout_ne Herr_ne.
  split.
  - intros result self' io' Hrun.
    destruct (run_returned rt os self command first_run resume log_file on_output
                process io result self' io' Hspawn Hrun) as (-> & _).
    rewrite Hout, Herr, !lines_read_until by assumption. now split.
  - intros Hq Hlo Hle.
    apply (run_returns rt os self command first_run resume log_file on_output
             process io Hspawn Hq).
    + now rewrite Hout, lines_read_until.
    + now rewrite Herr, lines_read_until.
Qed.

(** The streams of the tests, each with its empty chunk at the end, and a
    chunk after it that is never read. *)
Lemma X14_empty_chunk_ends_stream_witness :
  exists result,
    fst (fst (run ascii_runtime
                (os_of (inr {| stdout := [blit (with_nl "output"); []; blit "unread"];
                               stderr := [[]];
                               returncode := Some 0%Z |}))
                (Executor_init None false) (lit "test command")
                false false None None io_empty))
    = Returns result
    /\ output result = lit (with_nl "output")
    /\ error_output result = [].
Proof.
  pose (process := {| stdout := [blit (with_nl "output"); []; blit "unread"];
                      stderr := [[]];
                      returncode := Some 0%Z |}).
  destruct (X14_empty_chunk_ends_stream ascii_runtime (os_of (inr process))
              (Executor_init None false) (lit "test command")
              false false None None io_empty process
              [blit (with_nl "output")] [blit "unread"] [] []
              eq_refl eq_refl eq_refl) as [Hfields Hreturns].
  - apply nonempty_chunks_check. vm_compute; reflexivity.
  - constructor.
  - destruct Hreturns as (result & Hres).
    + apply quiet_os_of.
    + apply within_limit_check. vm_compute; reflexivity.
    + constructor.
    + exists result. split; [exact Hres|].
      exact (Hfields _ _ _ (returned_eq _ _ Hres)).
Defined.

(** X15: where no operation of the world raises, a process that writes
    nothing gives a result with an empty output, an empty error output and no
    identifier, the executor is left as it was, and a log file given to the
    call is created, or emptied, and stays empty. *)
Theorem X15_silent_process :
  forall (rt : Py.Runtime) (os : OS) (self : Executor) (command : str)
         (first_run resume : bool) (log_file : option path)
         (on_output : option Callable) (io : IO) (process : Process),
    create_subprocess_exec os (_build_args self command first_run resume)
    = inr process ->
    stdout process = [] -> stderr process = [] ->
    quiet os ->
    let r := run rt os self command first_run resume log_file on_output io in
    (exists result,
        fst (fst r) = Returns result
        /\ output result = [] /\ error_output result = []
        /\ session_id result = None)
    /\ snd (fst r) = self
    /\ (forall p, log_file = Some p -> files (snd r) p = Some []).
Proof.
  intros rt os self command first_run resume log_file on_output io process
         Hspawn Hout Herr Hq. cbn zeta.
  destruct (run_returns rt os self command first_run resume log_file on_output
              process io Hspawn Hq) as (result & Hres).
  { rewrite Hout. constructor. }
  { rewrite Herr. constructor. }
  pose proof (returned_eq _ _ Hres) as Hrun.
  destruct (run_returned rt os self command first_run resume log_file on_output
              process io result _ _ Hspawn Hrun) as (Hresult & Hself & _ & Hfs).
  rewrite Hout, Herr in Hresult. rewrite Hout in Hself. rewrite Hout, Herr in Hfs.
  cbn [lines_read map List.concat] in Hresult, Hself, Hfs.
  assert (Hnone : (if first_run && truthy (session_name self)
                   then _extract_session_id rt [] else None) = None)
    by now destruct (first_run && truthy (session_name self)).
  rewrite Hnone in Hresult, Hself. rewrite andb_false_r in Hself.
  split; [|split].
  - exists result. split; [exact Hres|]. now rewrite Hresult.
  - exact Hself.
  - intros p ->. now rewrite Hfs, String.eqb_refl.
Qed.

Lemma X15_silent_process_witness :
  files (snd (run ascii_runtime (os_of (inr (process_of [] [] 0)))
                (Executor_init None false) (lit "test") false false
                (Some "test.txt"%string) None
                (io_with "test.txt"%string (lit "left from an earlier call"))))
        "test.txt"%string
  = Some [].
Proof.
  refine (proj2 (proj2
            (X15_silent_process ascii_runtime (os_of (inr (process_of [] [] 0)))
               (Executor_init None false) (lit "test") false false
               (Some "test.txt"%string) None
               (io_with "test.txt"%string (lit "left from an earlier call"))
               (process_of [] [] 0) eq_refl eq_refl eq_refl _))
            "test.txt"%string eq_refl).
  apply quiet_os_of.
Defined.
